(** * Alignment trimming of phyluce ([phyluce/generic_align.py])

    A shallow embedding of [GenericAlign]: the column scan
    ([running_average]), block clipping ([stage_one_trimming]), the
    consensus-relative row masking ([stage_two_trimming]) and the three-pass
    driver ([trim_alignment]), together with the parts of the Python
    run-time, of numpy and of Biopython these methods call.

    Conventions of the embedding.
    - A Python exception is a value: every method returns a [result].
    - [None] is [Datatypes.None]; a method that may return [None] returns an
      [option].
    - A Python [float] and an entry of a numpy [float64] array is an IEEE 754
      binary64 number: a [spec_float] of the Standard Library, with the
      operations [SFadd], [SFmul], [SFdiv] and [SFcompare] at precision 53
      and maximal exponent 1024 (rounding to nearest, ties to even).  A
      decimal literal such as [0.75] is the binary64 number nearest to it,
      [Float.of_Q (3 # 4)].  numpy's inner product adds its terms from left
      to right, starting from [0.0].
    - The threshold test of Biopython's [dumb_consensus] compares the ratio
      of two row counts with 0.7; it is kept in exact rationals, with which
      the binary64 test agrees as long as the rows number fewer than 10^15.
    - Sequence data (a [Seq], a numpy array of characters) is a
      [list ascii]; labels are [string]s.
    - Alphabets are not modelled: the records are taken to carry DNA
      alphabets that Biopython accepts together with the ones the code
      creates. *)

From Stdlib Require Import Ascii String.
From Stdlib Require Import List Bool Arith ZArith QArith Qround Lia.
From Stdlib Require Import SpecFloat.
Import ListNotations.

Local Open Scope nat_scope.

(* ------------------------------------------------------------------ *)
(** ** Binary64 floating-point numbers *)

(** A Python [float], an entry of a [float64] array. *)
Definition float : Set := spec_float.

Module Float.

Definition prec : Z := 53.
Definition emax : Z := 1024.

Definition zero : float := S754_zero false.

(** [float(z)] for an integer [z], rounded when [z] has more than 53
    bits.  (Python refuses an integer beyond the range of the floats; no
    row count and no window size comes near it.) *)
Definition of_Z (z : Z) : float := binary_normalize prec emax z 0 false.

Definition of_nat (n : nat) : float := of_Z (Z.of_nat n).

Definition one : float := of_Z 1.

Definition add : float -> float -> float := SFadd prec emax.
Definition mul : float -> float -> float := SFmul prec emax.
Definition div : float -> float -> float := SFdiv prec emax.

(** [x <= y] and [x < y]; both are false when an operand is a NaN. *)
Definition leb : float -> float -> bool := SFleb.
Definition ltb : float -> float -> bool := SFltb.

(** The number a decimal literal denotes: the quotient of numerator and
    denominator, rounded once. *)
Definition of_Q (q : Q) : float :=
  match Qnum q with
  | Z0 => zero
  | Zpos n => div (S754_finite false n 0) (S754_finite false (Qden q) 0)
  | Zneg n => div (S754_finite true n 0) (S754_finite false (Qden q) 0)
  end.


End Float.

(* ------------------------------------------------------------------ *)
(** ** Python run-time *)

Module Py.

(** The exceptions that the modelled code can raise. *)
Inductive exn : Set :=
| IndexError | ValueError | TypeError | AttributeError | UnboundLocalError
| OverflowError.

Inductive result (A : Type) : Type :=
| Ok (a : A)
| Raise (e : exn).
Arguments Ok {A} a.
Arguments Raise {A} e.

Definition bind {A B} (c : result A) (k : A -> result B) : result B :=
  match c with
  | Ok a => k a
  | Raise e => Raise e
  end.

(** [for x in xs: ys.append(f(x))], stopping at the first exception. *)
Fixpoint mapM {A B} (f : A -> result B) (xs : list A) : result (list B) :=
  match xs with
  | [] => Ok []
  | x :: tl =>
      bind (f x) (fun y => bind (mapM f tl) (fun ys => Ok (y :: ys)))
  end.

(** [l[start:end]] for non-negative indices: both ends are clamped. *)
Definition slice {A} (l : list A) (start stop : nat) : list A :=
  firstn (stop - start) (skipn start l).

(** [a[:k] = c] and [a[k:] = c] on a numpy array, [k >= 0]. *)
Definition assign_prefix {A} (k : nat) (c : A) (a : list A) : list A :=
  repeat c (Nat.min k (length a)) ++ skipn k a.

Definition assign_suffix {A} (k : nat) (c : A) (a : list A) : list A :=
  firstn k a ++ repeat c (length a - k).

(** The two kinds of container the row check compares. *)
Inductive container : Set :=
| PySet (elems : list ascii)
| PyList (elems : list ascii).

Definition mem (c : ascii) (l : list ascii) : bool :=
  existsb (Ascii.eqb c) l.

Definition set_eqb (s t : list ascii) : bool :=
  forallb (fun c => mem c t) s && forallb (fun c => mem c s) t.

(** [x != y]: two sets differ when they do not have the same elements; a
    set and a list are never equal, whatever they hold. *)
Definition ne (x y : container) : bool :=
  match x, y with
  | PySet s, PySet t => negb (set_eqb s t)
  | PyList s, PyList t =>
      negb (if list_eq_dec ascii_dec s t then true else false)
  | _, _ => true
  end.

(** [round(x, 0)] of Python 2: the nearest integral float, halves going
    away from zero.  A float whose exponent is not negative is integral. *)
Definition round (x : float) : float :=
  match x with
  | S754_finite s m e =>
      if (0 <=? e)%Z then x
      else
        let half := (2 ^ (- e - 1))%Z in
        binary_normalize Float.prec Float.emax
          (cond_Zopp s ((Z.pos m + half) / (2 * half))) 0 s
  | _ => x
  end.

(** [int(x)]: the integral part; an infinity and a NaN are refused. *)
Definition int (x : float) : result Z :=
  match x with
  | S754_zero _ => Ok 0%Z
  | S754_finite s m e =>
      Ok (cond_Zopp s (if (0 <=? e)%Z then Z.pos m * 2 ^ e
                       else Z.pos m / 2 ^ (- e)))%Z
  | S754_infinity _ => Raise OverflowError
  | S754_nan => Raise ValueError
  end.

(** ** [collections.Counter], as the list of (key, count) in the order the
    keys were first seen. *)
Definition Counter := list (ascii * nat).

Fixpoint incr (c : ascii) (cnt : Counter) : Counter :=
  match cnt with
  | [] => [(c, 1)]
  | (k, v) :: tl =>
      if Ascii.eqb k c then (k, S v) :: tl else (k, v) :: incr c tl
  end.

Definition count (l : list ascii) : Counter :=
  fold_left (fun cnt c => incr c cnt) l [].

(** [cnt[c]]: a missing key counts 0. *)
Fixpoint get (c : ascii) (cnt : Counter) : nat :=
  match cnt with
  | [] => 0
  | (k, v) :: tl => if Ascii.eqb k c then v else get c tl
  end.

(** [del cnt[c]]: no error when the key is missing. *)
Definition del (c : ascii) (cnt : Counter) : Counter :=
  filter (fun kv => negb (Ascii.eqb (fst kv) c)) cnt.

(** [cnt.most_common(1)]: the list holding one entry of greatest count,
    empty when the counter is.  Among entries of equal count the first seen
    is taken; the code reads the count only. *)
Definition most_common_1 (cnt : Counter) : list (ascii * nat) :=
  match cnt with
  | [] => []
  | kv :: tl =>
      [fold_left (fun best kv' => if snd best <? snd kv' then kv' else best)
                 tl kv]
  end.

End Py.

Import Py.

Declare Scope py_scope.
Notation "x <- c ;; k" := (Py.bind c (fun x => k))
  (at level 61, c at next level, right associativity) : py_scope.
Local Open Scope py_scope.

(* ------------------------------------------------------------------ *)
(** ** numpy *)

Module Numpy.

(** A boolean array enters the arithmetic as [1.0] and [0.0]. *)
Definition of_bool (b : bool) : float :=
  if b then Float.one else Float.zero.

(** The indices [m] of [a] at which [a[m]] meets an entry [v[n - m]]. *)
Definition overlap (len_a len_v n : nat) : list nat :=
  filter (fun m => (m <=? n) && (n - m <? len_v)) (List.seq 0 len_a).

(** [(a * v)[n] = sum_m a[m] v[n - m]], the discrete convolution.  numpy
    computes the entry as an inner product: [tmp = 0.0], then
    [tmp += a[m] * v[n - m]] for the indices of [a] in increasing order. *)
Definition conv_at (a v : list float) (n : nat) : float :=
  fold_left (fun tmp m =>
               Float.add tmp
                 (Float.mul (nth m a Float.zero) (nth (n - m) v Float.zero)))
            (overlap (length a) (length v) n) Float.zero.

Definition convolve_full (a v : list float) : list float :=
  map (conv_at a v) (List.seq 0 (length a + length v - 1)).

(** [numpy.convolve(a, v, 'same')].  numpy exchanges the arguments when
    [v] is the longer one, refuses an empty argument, and returns the
    [max (len a) (len v)] central entries of the full convolution: the
    entries from index [(n - 1) / 2] on, [n] the shorter length. *)
Definition convolve_same (a v : list float) : result (list float) :=
  let '(a, v) := if length a <? length v then (v, a) else (a, v) in
  if length a =? 0 then Raise ValueError
  else if length v =? 0 then Raise ValueError
  else Ok (firstn (length a)
                  (skipn ((length v - 1) / 2) (convolve_full a v))).

(** [numpy.repeat(1.0, n) / n]. *)
Definition weights (n : nat) : list float :=
  repeat (Float.div Float.one (Float.of_nat n)) n.

(** [numpy.where(cond)[0]]: the indices at which [cond] holds. *)
Definition where_ (cond : list bool) : list nat :=
  map fst (filter snd (combine (List.seq 0 (length cond)) cond)).

(** [a == b] on two character arrays of one shape; arrays of different
    shapes are not compared element by element. *)
Definition array_eq (a b : list ascii) : result (list bool) :=
  if length a =? length b
  then Ok (map (fun p => Ascii.eqb (fst p) (snd p)) (combine a b))
  else Raise ValueError.

(** [numpy.all(x == True)]. *)
Definition all_true (x : list bool) : bool := forallb (Bool.eqb true) x.

End Numpy.

(* ------------------------------------------------------------------ *)
(** ** Biopython *)

Module Bio.

Record SeqRecord : Set := mkSeqRecord {
  seq : list ascii;
  id : string;
  name : string;
  description : string
}.

(** [record[start:end]]: the letters are sliced, the labels are kept. *)
Definition record_slice (r : SeqRecord) (start stop : nat) : SeqRecord :=
  mkSeqRecord (Py.slice (seq r) start stop) (id r) (name r) (description r).

(** A [MultipleSeqAlignment] is its list [_records]. *)
Definition MultipleSeqAlignment : Set := list SeqRecord.

Definition get_alignment_length (aln : MultipleSeqAlignment) : nat :=
  fold_left (fun m r => if m <? length (seq r) then length (seq r) else m)
            aln 0.

(** [aln.append(record)] refuses a record of another length. *)
Definition append (aln : MultipleSeqAlignment) (record : SeqRecord)
  : result MultipleSeqAlignment :=
  match aln with
  | [] => Ok [record]
  | _ :: _ =>
      if length (seq record) =? get_alignment_length aln
      then Ok (aln ++ [record])
      else Raise ValueError
  end.

(** [aln[:, column]]: the letters of one column, top row first. *)
Definition column (aln : MultipleSeqAlignment) (col : nat)
  : result (list ascii) :=
  Py.mapM (fun r => match nth_error (seq r) col with
                    | Some c => Ok c
                    | None => Raise IndexError
                    end) aln.

(** *** [AlignInfo.SummaryInfo(aln).dumb_consensus()]

    With its defaults [threshold = 0.7], [ambiguous = "X"] and
    [require_multiple = 0].  For each column the letters other than ["-"]
    and ["."] are tallied in [atom_dict] and counted in [num_atoms]; the
    letters of greatest tally are collected in [max_atoms]; the column's
    letter is that of [max_atoms] when it is alone there and its share of
    [num_atoms] reaches the threshold, and [ambiguous] otherwise. *)

Definition is_gap_letter (c : ascii) : bool :=
  Ascii.eqb c "-" || Ascii.eqb c ".".

(** The tally loop over the records, for column [n]. *)
Fixpoint tally (n : nat) (records : list SeqRecord)
         (atom_dict : Py.Counter) (num_atoms : nat) : Py.Counter * nat :=
  match records with
  | [] => (atom_dict, num_atoms)
  | record :: tl =>
      match nth_error (seq record) n with
      | Some c =>
          if negb (Ascii.eqb c "-") && negb (Ascii.eqb c ".")
          then tally n tl (Py.incr c atom_dict) (S num_atoms)
          else tally n tl atom_dict num_atoms
      | None => tally n tl atom_dict num_atoms
      end
  end.

(** The loop [for atom in atom_dict] that fills [max_atoms], [max_size].
    Python visits the keys in an order of its own; the entries are taken
    here in the order they were first tallied.  The consensus only asks
    whether [max_atoms] ends with a single letter, which no order changes
    (see [consensus_letter_spec]). *)
Fixpoint maxima (atoms : list (ascii * nat)) (max_atoms : list ascii)
         (max_size : nat) : list ascii * nat :=
  match atoms with
  | [] => (max_atoms, max_size)
  | (atom, k) :: tl =>
      if max_size <? k then maxima tl [atom] k
      else if k =? max_size then maxima tl (max_atoms ++ [atom]) max_size
      else maxima tl max_atoms max_size
  end.

Definition threshold : Q := (7 # 10)%Q.
Definition ambiguous : ascii := "X".

Definition consensus_letter (aln : MultipleSeqAlignment) (n : nat) : ascii :=
  let '(atom_dict, num_atoms) := tally n aln [] 0 in
  let '(max_atoms, max_size) := maxima atom_dict [] 0 in
  match max_atoms with
  | [atom] =>
      if Qle_bool threshold
           (inject_Z (Z.of_nat max_size) / inject_Z (Z.of_nat num_atoms))%Q
      then atom else ambiguous
  | _ => ambiguous
  end.

Definition dumb_consensus (aln : MultipleSeqAlignment) : list ascii :=
  map (consensus_letter aln) (List.seq 0 (get_alignment_length aln)).

End Bio.

(* ------------------------------------------------------------------ *)
(** ** [class GenericAlign] *)

Module GenericAlign.

Import Bio.

Definition gap : ascii := "-".
Definition missing : ascii := "?".

(** The run of ["-"] that the pattern [^([-]+)] matches (0 if none). *)
Fixpoint gap_run (s : list ascii) : nat :=
  match s with
  | c :: tl => if Ascii.eqb c gap then S (gap_run tl) else 0
  | [] => 0
  end.

(** The run of ["-"] that the pattern [([-]+)$] matches (0 if none).  [$]
    matches at the end of the string and before a newline that ends it, so
    the run is the one that closes the string or the one before its final
    newline: the opening run of the reversed string, the newline set
    apart. *)
Definition trailing_run (s : list ascii) : nat :=
  match rev s with
  | c :: before =>
      if Ascii.eqb c "010" then gap_run before else gap_run (c :: before)
  | [] => 0
  end.

Definition _get_ends (seq : SeqRecord) : nat * nat :=
  let start_gap := gap_run (Bio.seq seq) in
  let end_gap := trailing_run (Bio.seq seq) in
  (start_gap, length (Bio.seq seq) - end_gap).

(** [_gap_replacement]: as many [r] as the group that matched has letters.
    Both patterns it is used with have one group, so [match.groups()] is
    never empty. *)
Definition _gap_replacement (group : list ascii) (r : ascii) : list ascii :=
  repeat r (length group).

(** [re.sub('^([-]+)', self._gap_replacement, seq)]: the run of ["-"] that
    opens the string, if any, is replaced. *)
Definition sub_leading (seq : list ascii) : list ascii :=
  let run := gap_run seq in
  _gap_replacement (firstn run seq) missing ++ skipn run seq.

(** [re.sub('([-]+)$', self._gap_replacement, seq)].  [$] matches at the end
    of the string and before a newline that ends it, so the run replaced is
    the one that closes the string or the one before its final newline; it
    is the opening run of the reversed string, the newline set apart. *)
Definition sub_trailing (seq : list ascii) : list ascii :=
  match rev seq with
  | c :: before =>
      if Ascii.eqb c "010" then rev (c :: sub_leading before)
      else rev (sub_leading (c :: before))
  | [] => []
  end.

(** [_replace_ends]: the edge gaps of a row become missing-data markers. *)
Definition _replace_ends (seq : list ascii) : list ascii :=
  sub_trailing (sub_leading seq).

(** [_alignment_consensus]: [dumb_consensus()] with its ["X"] replaced. *)
Definition _alignment_consensus (alignment : option MultipleSeqAlignment)
  : result (list ascii) :=
  match alignment with
  | None => Raise AttributeError
  | Some aln =>
      Ok (map (fun c => if Ascii.eqb c "X" then gap else c)
              (Bio.dumb_consensus aln))
  end.

Definition _record_formatter (trim : list ascii) (name : string)
  : SeqRecord :=
  mkSeqRecord trim name name name.

(** The test of one column in [running_average]. *)
Definition column_is_good (majority_of_characters : Z) (col : list ascii)
  : result bool :=
  let column_count := Py.count col in
  if (Z.of_nat (Py.get gap column_count) <=? majority_of_characters)%Z then
    let column_count := Py.del gap column_count in
    match Py.most_common_1 column_count with
    | (_, n) :: _ => Ok (majority_of_characters <=? Z.of_nat n)%Z
    | [] => Raise IndexError
    end
  else Ok false.

(** [int(round(proportion * taxa, 0))]. *)
Definition majority (proportion : float) (taxa : nat) : result Z :=
  Py.int (Py.round (Float.mul proportion (Float.of_nat taxa))).

(** The list [good_alignment] that the column loop builds. *)
Definition good_columns (alignment : MultipleSeqAlignment)
           (proportion : float) : result (list bool) :=
  let taxa := length alignment in
  majority_of_characters <- majority proportion taxa ;;
  Py.mapM (fun column =>
             col <- Bio.column alignment column ;;
             column_is_good majority_of_characters col)
          (List.seq 0 (get_alignment_length alignment)).

(** [good[0]] and [good[-1]], or [None] for both on an [IndexError]. *)
Definition clip (good : list nat) : option nat * option nat :=
  match good with
  | [] => (None, None)
  | start_clip :: _ => (Some start_clip, Some (last good 0))
  end.

Definition running_average (alignment : MultipleSeqAlignment)
           (window_size : nat) (threshold proportion : float)
  : result (option nat * option nat) :=
  good_alignment <- good_columns alignment proportion ;;
  let weight := Numpy.weights window_size in
  running_average <-
    Numpy.convolve_same (map Numpy.of_bool good_alignment) weight ;;
  let good :=
    Numpy.where_ (map (fun x => Float.leb threshold x) running_average) in
  Ok (clip good).

(** [set(trim) != set(['-']) and set(trim) != (['?'])]. *)
Definition keep_row (trim : list ascii) : bool :=
  Py.ne (PySet trim) (PySet [gap]) && Py.ne (PySet trim) (PyList [missing]).

(** The loop of [stage_one_trimming].  [start >= 0 and end] holds when
    [start] is a number (Python 2 orders [None] below every number) and
    [end] is a number other than 0. *)
Fixpoint stage_one_loop (start stop : option nat) (rows : list SeqRecord)
         (s1_trimmed : MultipleSeqAlignment)
  : result (option MultipleSeqAlignment) :=
  match rows with
  | [] => Ok (Some s1_trimmed)
  | sequence :: rest =>
      match start, stop with
      | Some s, Some (S e) =>
          let trim := record_slice sequence s (S e) in
          if keep_row (Bio.seq trim) then
            s1_trimmed <- Bio.append s1_trimmed
                                     (record_slice sequence s (S e)) ;;
            stage_one_loop start stop rest s1_trimmed
          else Ok None
      | _, _ => Ok None
      end
  end.

(** A [None] alignment fails at [len(alignment)]. *)
Definition stage_one_trimming (alignment : option MultipleSeqAlignment)
           (window_size : nat) (threshold proportion : float)
  : result (option MultipleSeqAlignment) :=
  match alignment with
  | None => Raise TypeError
  | Some aln =>
      clips <- running_average aln window_size threshold proportion ;;
      stage_one_loop (fst clips) (snd clips) aln []
  end.

(** [for i in xrange(gm.size): if numpy.all(gm[i:i+5] == True): ... break]:
    the first [i] whose slice [gm[i:i+5]] holds only [True]. *)
Fixpoint first_run (gm : list bool) (i : nat) : option nat :=
  match gm with
  | [] => None
  | _ :: tl =>
      if Numpy.all_true (firstn 5 gm) then Some i else first_run tl (S i)
  end.

(** [compare]: the row, without its own edge gaps, against the consensus
    at the same columns. *)
Definition row_compare (consensus_array : list ascii) (sequence : SeqRecord)
  : result (list bool) :=
  let '(start, stop) := _get_ends sequence in
  let orig_seq_array := Bio.seq sequence in
  let seq_array := Py.slice orig_seq_array start stop in
  Numpy.array_eq seq_array (Py.slice consensus_array start stop).

(** [gm]: the smoothed comparison, thresholded at 0.99. *)
Definition row_gm (consensus_array : list ascii) (sequence : SeqRecord)
           (window_size : nat) : result (list bool) :=
  compare <- row_compare consensus_array sequence ;;
  let weight := Numpy.weights window_size in
  running_average <- Numpy.convolve_same (map Numpy.of_bool compare) weight ;;
  Ok (map (fun x => Float.ltb (Float.of_Q (99 # 100)) x) running_average).

(** A local variable of Python is unbound until it is first assigned. *)
Definition read_local (x : option nat) : result nat :=
  match x with
  | Some v => Ok v
  | None => Raise UnboundLocalError
  end.

Definition assign_if_found (found : option nat) (old : option nat)
  : option nat :=
  match found with
  | Some v => Some v
  | None => old
  end.

(** The body of the row loop of [stage_two_trimming], up to [trim].  The
    locals [bad_start] and [bad_end] belong to the function, not to the
    iteration: they enter with the values the previous rows left and are
    assigned only when a scan succeeds. *)
Definition trim_row (consensus_array : list ascii) (sequence : SeqRecord)
           (window_size : nat) (bad_start bad_end : option nat)
  : result (list ascii * option nat * option nat) :=
  let start := fst (_get_ends sequence) in
  let orig_seq_array := Bio.seq sequence in
  gm <- row_gm consensus_array sequence window_size ;;
  let bad_start := assign_if_found (first_run gm 0) bad_start in
  let reversed_gm := rev gm in
  let bad_end :=
    assign_if_found
      (option_map (fun i => length reversed_gm - i) (first_run reversed_gm 0))
      bad_end in
  bs <- read_local bad_start ;;
  let orig_seq_array := Py.assign_prefix (start + bs) gap orig_seq_array in
  be <- read_local bad_end ;;
  let orig_seq_array := Py.assign_suffix (start + be) gap orig_seq_array in
  Ok (orig_seq_array, bad_start, bad_end).

Fixpoint stage_two_loop (consensus_array : list ascii)
         (rows : list SeqRecord) (window_size : nat)
         (bad_start bad_end : option nat) (s2_trimmed : MultipleSeqAlignment)
  : result (option MultipleSeqAlignment) :=
  match rows with
  | [] => Ok (Some s2_trimmed)
  | sequence :: rest =>
      r <- trim_row consensus_array sequence window_size bad_start bad_end ;;
      let '(trim, bad_start, bad_end) := r in
      if keep_row trim then
        s2_trimmed <- Bio.append s2_trimmed
                                 (_record_formatter trim (Bio.id sequence)) ;;
        stage_two_loop consensus_array rest window_size
                       bad_start bad_end s2_trimmed
      else Ok None
  end.

Definition stage_two_trimming (s1_trimmed : option MultipleSeqAlignment)
           (window_size : nat) : result (option MultipleSeqAlignment) :=
  consensus_array <- _alignment_consensus s1_trimmed ;;
  match s1_trimmed with
  | None => Raise TypeError
  | Some rows =>
      stage_two_loop consensus_array rows window_size None None []
  end.

(** What [trim_alignment] leaves behind: [self.trimmed] and the lines it
    printed. *)
Record outcome : Set := mkOutcome {
  trimmed : option MultipleSeqAlignment;
  printed : list string
}.

(** [not self.trimmed]: [None] and an alignment without rows are false. *)
Definition falsy (t : option MultipleSeqAlignment) : bool :=
  match t with
  | None | Some [] => true
  | Some (_ :: _) => false
  end.

Definition drop_message (description : string) : string :=
  String (ascii_of_nat 9)
         ("Alignment " ++ description ++ " dropped due to trimming")%string.

Definition report (alignment : MultipleSeqAlignment)
           (t : option MultipleSeqAlignment) : result outcome :=
  if falsy t then
    match alignment with
    | first :: _ => Ok (mkOutcome t [drop_message (description first)])
    | [] => Raise IndexError
    end
  else Ok (mkOutcome t []).

Definition trim_alignment (alignment : MultipleSeqAlignment)
           (method : string) (window_size : nat) (threshold proportion : float)
  : result outcome :=
  if String.eqb method "notrim" then report alignment (Some alignment)
  else
    s1_trimmed <-
      stage_one_trimming (Some alignment) window_size threshold proportion ;;
    s2_trimmed <- stage_two_trimming s1_trimmed 5 ;;
    t <- stage_one_trimming s2_trimmed window_size threshold proportion ;;
    report alignment t.

End GenericAlign.

Import Bio GenericAlign.

(* ------------------------------------------------------------------ *)
(** ** Concrete alignments *)

Module Examples.

Definition row (label letters : string) : SeqRecord :=
  mkSeqRecord (list_ascii_of_string letters) label label label.

Definition letters (aln : MultipleSeqAlignment) : list string :=
  map (fun r => string_of_list_ascii (Bio.seq r)) aln.

(** Four identical rows, ten columns: shorter than the default window. *)
Definition short_block : MultipleSeqAlignment :=
  [ row "t1" "ACGTACGTAC"; row "t2" "ACGTACGTAC";
    row "t3" "ACGTACGTAC"; row "t4" "ACGTACGTAC" ].

(** Three identical rows and a row of missing data. *)
Definition missing_row : MultipleSeqAlignment :=
  [ row "t1" "ACGTACGT"; row "t2" "ACGTACGT";
    row "t3" "ACGTACGT"; row "t4" "????????" ].

(** Half of the rows have a gap in the first column. *)
Definition half_gapped : MultipleSeqAlignment :=
  [ row "t1" "AC"; row "t2" "AC"; row "t3" "-C"; row "t4" "-C" ].

(** One row in lower case. *)
Definition lower_case : MultipleSeqAlignment :=
  [ row "t1" "ACGTACGTACGT"; row "t2" "ACGTACGTACGT";
    row "t3" "ACGTACGTACGT"; row "t4" "acgtacgtacgt" ].

(** Five columns, all conserved: narrower than a window of eight. *)
Definition narrow : MultipleSeqAlignment :=
  [ row "t1" "ACGTA"; row "t2" "ACGTA"; row "t3" "ACGTA"; row "t4" "ACGTA" ].

(** The last row agrees with the consensus at three columns only. *)
Definition divergent_last : MultipleSeqAlignment :=
  [ row "t1" "TACGTACGTACGTA"; row "t2" "TACGTACGTACGTA";
    row "t3" "TACGTACGTACGTA"; row "t4" "TTTTTTTTTTTTTT" ].

Definition divergent_first : MultipleSeqAlignment :=
  [ row "t4" "TTTTTTTTTTTTTT"; row "t1" "TACGTACGTACGTA";
    row "t2" "TACGTACGTACGTA"; row "t3" "TACGTACGTACGTA" ].

(** Four identical rows, fourteen columns, no gap. *)
Definition conserved : MultipleSeqAlignment :=
  [ row "t1" "TACGTACGTACGTA"; row "t2" "TACGTACGTACGTA";
    row "t3" "TACGTACGTACGTA"; row "t4" "TACGTACGTACGTA" ].

(** Eighteen conserved columns: with a window of eight and threshold 1 the
    block left by pass B is too narrow for pass C. *)
Definition narrow_after_masking : MultipleSeqAlignment :=
  [ row "t1" "ACGTACGTACGTACGTAC"; row "t2" "ACGTACGTACGTACGTAC";
    row "t3" "ACGTACGTACGTACGTAC"; row "t4" "ACGTACGTACGTACGTAC" ].

(** Only the first column is conserved. *)
Definition first_column_only : MultipleSeqAlignment :=
  [ row "t1" "AC"; row "t2" "AG"; row "t3" "AT"; row "t4" "AA" ].

(** Four rows of gap markers. *)
Definition all_gaps : MultipleSeqAlignment :=
  [ row "t1" "-----"; row "t2" "-----"; row "t3" "-----"; row "t4" "-----" ].


(** Two rows whose second column holds gaps only. *)
Definition gap_column : MultipleSeqAlignment :=
  [ row "t1" "A-"; row "t2" "A-" ].

End Examples.

Import Examples.

(* ------------------------------------------------------------------ *)
(** ** The design document's wording, for comparison with the code *)

Module Design.

(** Case normalisation of a base letter. *)
Definition upper (c : ascii) : ascii :=
  let n := nat_of_ascii c in
  if (97 <=? n) && (n <=? 122) then ascii_of_nat (n - 32) else c.

(** The most frequent entry; among equals, the one met first. *)
Definition winner (tally : Py.Counter) : option (ascii * nat) :=
  match tally with
  | [] => None
  | kv :: tl =>
      Some (fold_left
              (fun best kv' => if snd best <? snd kv' then kv' else best)
              tl kv)
  end.

(** ConsensusBuilder, one column: case-normalised tally without the gap
    marker, the winner called when its share of the row count reaches
    [callThreshold]. *)
Definition consensus_call (callThreshold : Q) (col : list ascii) : ascii :=
  let bases :=
    filter (fun c => negb (Ascii.eqb c gap)) (map upper col) in
  match winner (Py.count bases) with
  | Some (c, k) =>
      if Qle_bool callThreshold
           (inject_Z (Z.of_nat k) / inject_Z (Z.of_nat (length col)))%Q
      then c else gap
  | None => gap
  end.

Definition build (alignment : MultipleSeqAlignment) : list ascii :=
  map (fun n =>
         consensus_call (7 # 10)
           (map (fun r => nth n (Bio.seq r) gap) alignment))
      (List.seq 0 (get_alignment_length alignment)).

(** RowEdgeTrimmer step 2: the match sequence over [rowStart, rowEnd),
    case-insensitive. *)
Definition match_sequence (consensus : list ascii) (sequence : SeqRecord)
  : list bool :=
  let '(rowStart, rowEnd) := _get_ends sequence in
  map (fun p => Ascii.eqb (upper (fst p)) (upper (snd p)))
      (combine (Py.slice (Bio.seq sequence) rowStart rowEnd)
               (Py.slice consensus rowStart rowEnd)).

(** ColumnQualityScanner step 3: the number of GOOD columns in the window
    of [windowSize] columns centred on column [k]; columns outside the
    alignment count as BAD. *)
Definition window_count (good : list bool) (windowSize k : nat) : nat :=
  length
    (filter (fun i => (k <=? i + windowSize / 2)
                      && (i + windowSize / 2 <? k + windowSize)
                      && nth i good false)
            (List.seq 0 (length good))).

Definition moving_average (good : list bool) (windowSize k : nat) : Q :=
  (inject_Z (Z.of_nat (window_count good windowSize k))
   / inject_Z (Z.of_nat windowSize))%Q.

(** Steps 4 and 5: the first and last column whose average reaches the
    threshold. *)
Definition qualifying (good : list bool) (windowSize : nat) (threshold : Q)
  : list nat :=
  filter (fun k => Qle_bool threshold (moving_average good windowSize k))
         (List.seq 0 (length good)).

Definition scan (good : list bool) (windowSize : nat) (threshold : Q)
  : option (nat * nat) :=
  match qualifying good windowSize threshold with
  | [] => None
  | startColumn :: _ =>
      Some (startColumn, last (qualifying good windowSize threshold) 0)
  end.

End Design.

(* ------------------------------------------------------------------ *)
(** ** Vocabulary of the statements *)

(** Same label, same number of letters. *)
Definition same_shape (r r' : SeqRecord) : Prop :=
  Bio.id r' = Bio.id r /\ length (Bio.seq r') = length (Bio.seq r).

(** The keys of a counter, and the counter after tallying [l] into [d]. *)
Definition keys (d : Py.Counter) : list ascii := map fst d.

Definition tally_of (l : list ascii) (d : Py.Counter) : Py.Counter :=
  fold_left (fun cnt c => Py.incr c cnt) l d.

(** The letters of column [n], top row first (rows too short for the
    column give none), and those that are tallied. *)
Definition column_letters (aln : MultipleSeqAlignment) (n : nat)
  : list ascii :=
  flat_map (fun r => match nth_error (Bio.seq r) n with
                     | Some c => [c]
                     | None => []
                     end) aln.

Definition atoms (aln : MultipleSeqAlignment) (n : nat) : list ascii :=
  filter (fun c => negb (Bio.is_gap_letter c)) (column_letters aln n).

Definition occurrences (aln : MultipleSeqAlignment) (n : nat) (c : ascii)
  : nat :=
  count_occ ascii_dec (atoms aln n) c.

(** The number of [True] among the data that the window ending at
    position [n] of the full convolution covers, counted along the data
    ([hits]) or along the weights ([hits_w]). *)
Definition hits (g : list bool) (w n : nat) : nat :=
  length (filter (fun m => (m <=? n) && (n - m <? w) && nth m g false)
                 (List.seq 0 (length g))).

Definition hits_w (g : list bool) (w n : nat) : nat :=
  length (filter (fun m => (m <=? n) && nth (n - m) g false)
                 (List.seq 0 w)).

(** Five consecutive positions of [gm], from [i] on, all hold. *)
Definition run_at (gm : list bool) (i : nat) : Prop :=
  forall j, j < 5 -> nth (i + j) gm false = true.

(** [i] is the first such position. *)
Definition first_run_at (gm : list bool) (i : nat) : Prop :=
  run_at gm i /\ forall t, t < i -> ~ run_at gm t.

(** The letters of column [c] when every row reaches it. *)
Definition column_of (aln : MultipleSeqAlignment) (c : nat) : list ascii :=
  map (fun r => nth c (Bio.seq r) gap) aln.

(** The verdict of the column test, [false] standing for an exception. *)
Definition verdict (majority_of_characters : Z) (col : list ascii) : bool :=
  match column_is_good majority_of_characters col with
  | Ok b => b
  | Raise _ => false
  end.

(** [r'] is [r] with a prefix and a suffix of its letters overwritten with
    the gap marker, labelled with the [id] of [r]. *)
Definition masked_copy (r r' : SeqRecord) : Prop :=
  exists lo hi,
    r' = _record_formatter
           (Py.assign_suffix hi gap (Py.assign_prefix lo gap (Bio.seq r)))
           (Bio.id r).

(** All rows have [width] letters. *)
Definition uniform (aln : MultipleSeqAlignment) (width : nat) : Prop :=
  forall r, In r aln -> length (Bio.seq r) = width.

(** [r'] carries the label of [r], and each of its letters is the gap marker
    or the letter of [r] found [offset] columns further. *)
Definition drawn_from (offset : nat) (r r' : SeqRecord) : Prop :=
  Bio.id r' = Bio.id r
  /\ forall k, k < length (Bio.seq r') ->
       nth k (Bio.seq r') gap = gap
       \/ nth k (Bio.seq r') gap = nth (offset + k) (Bio.seq r) gap.

(** What numpy's loop leaves after [h] terms equal to [x]:
    [0.0 + x + ... + x], added one at a time. *)
Definition repeated_sum (x : float) (h : nat) : float :=
  Nat.iter h (fun tmp => Float.add tmp x) Float.zero.

(** A zero or a NaN: what sums and products of zeros can be. *)
Definition nullish (x : float) : Prop :=
  match x with
  | S754_zero _ | S754_nan => True
  | S754_infinity _ | S754_finite _ _ _ => False
  end.


(** The locals [bad_start] and [bad_end] of [stage_two_trimming] after the
    row body ran on the rows of [done], entered with the values given: a
    scan that succeeds assigns its local, a scan that fails leaves it. *)
Fixpoint locals_after (consensus_array : list ascii) (window_size : nat)
         (done : list SeqRecord) (bad_start bad_end : option nat)
  : option nat * option nat :=
  match done with
  | [] => (bad_start, bad_end)
  | sequence :: rest =>
      match row_gm consensus_array sequence window_size with
      | Ok gm =>
          let reversed_gm := rev gm in
          locals_after consensus_array window_size rest
            (assign_if_found (first_run gm 0) bad_start)
            (assign_if_found
               (option_map (fun i => length reversed_gm - i)
                           (first_run reversed_gm 0))
               bad_end)
      | Raise _ => (bad_start, bad_end)
      end
  end.

(* ------------------------------------------------------------------ *)
(** ** The code on the concrete alignments *)

(** Evaluation of the model on closed inputs, one conjunct at a time. *)
Ltac conjuncts :=
  repeat match goal with |- _ /\ _ => split end.
Ltac evaluate :=
  cbv zeta; conjuncts;
  try (vm_compute; first [reflexivity | discriminate | (split; reflexivity)]).

(** C1.  A block of ten conserved columns under the default parameters
    (window 20, threshold 0.75, proportion 0.65): no moving average reaches
    the threshold, pass A returns [None], and [trim_alignment] hands that
    [None] to [stage_two_trimming], which raises [AttributeError]; nothing is
    reported as dropped. *)
Theorem trim_alignment_raises_after_failed_pass :
  let threshold := Float.of_Q (75 # 100) in
  let proportion := Float.of_Q (65 # 100) in
  running_average short_block 20 threshold proportion = Ok (None, None)
  /\ stage_one_trimming (Some short_block) 20 threshold proportion = Ok None
  /\ stage_two_trimming None 5 = Raise AttributeError
  /\ trim_alignment short_block "running" 20 threshold proportion
     = Raise AttributeError.
Proof. evaluate. Qed.

(** C2.  A row of missing-data markers passes the row check of pass A: the
    clipped row ["??????"] is appended to the result. *)
Theorem stage_one_keeps_missing_row :
  keep_row (list_ascii_of_string "??????") = true
  /\ option_map letters
       match stage_one_trimming (Some missing_row) 4
               (Float.of_Q (3 # 4)) (Float.of_Q (3 # 4)) with
       | Ok t => t
       | Raise _ => None
       end
     = Some ["CGTACG"; "CGTACG"; "CGTACG"; "??????"]%string.
Proof. evaluate. Qed.

(** C3, counterexample.  Two of four rows have a gap in the first column:
    the code calls ["A"] there (2 of the 2 letters), where the design's
    rule, counting the gaps in the total (2 of 4 rows), gives the gap. *)
Lemma consensus_ignores_gapped_rows :
  _alignment_consensus (Some half_gapped) = Ok (list_ascii_of_string "AC")
  /\ Design.build half_gapped = list_ascii_of_string "-C"
  /\ _alignment_consensus (Some half_gapped) <> Ok (Design.build half_gapped).
Proof. evaluate. Qed.

(** C4, counterexample.  A lower-case row against the upper-case consensus
    of its alignment: the code's comparison holds nowhere, the
    case-insensitive match sequence everywhere. *)
Lemma compare_is_case_sensitive :
  let consensus := list_ascii_of_string "ACGTACGTACGT" in
  let sequence := row "t4" "acgtacgtacgt" in
  _alignment_consensus (Some lower_case) = Ok consensus
  /\ row_compare consensus sequence = Ok (repeat false 12)
  /\ Design.match_sequence consensus sequence = repeat true 12
  /\ row_compare consensus sequence
     <> Ok (Design.match_sequence consensus sequence).
Proof. evaluate. Qed.

(** C5.  Five conserved columns scanned with a window of eight and
    threshold 1/2: every column is GOOD and the centred moving average
    qualifies columns 0 to 4, but [running_average] returns (1, 6): numpy
    smooths the longer of its two arguments, here the weights. *)
Theorem running_average_narrow_alignment :
  good_columns narrow (Float.of_Q (3 # 4)) = Ok (repeat true 5)
  /\ Design.scan (repeat true 5) 8 (1 # 2) = Some (0, 4)
  /\ running_average narrow 8 (Float.of_Q (1 # 2)) (Float.of_Q (3 # 4))
     = Ok (Some 1, Some 6).
Proof. evaluate. Qed.

(** C6.  The last row of [divergent_last] matches the consensus at three
    columns only, so neither scan of its [gm] succeeds; it is masked with
    the [bad_start] and [bad_end] left by the row before it and kept.  With
    that row first, [bad_start] is unbound and the pass raises. *)
Theorem stage_two_reuses_previous_bounds :
  let s1 := [ row "t1" "ACGTACGTACGT"; row "t2" "ACGTACGTACGT";
              row "t3" "ACGTACGTACGT"; row "t4" "TTTTTTTTTTTT" ] in
  let consensus := list_ascii_of_string "ACGTACGTACGT" in
  let threshold := Float.of_Q (3 # 4) in
  let proportion := Float.of_Q (3 # 4) in
  stage_one_trimming (Some divergent_last) 4 threshold proportion
  = Ok (Some s1)
  /\ _alignment_consensus (Some s1) = Ok consensus
  /\ match row_gm consensus (row "t4" "TTTTTTTTTTTT") 5 with
     | Ok gm => first_run gm 0 = None /\ first_run (rev gm) 0 = None
     | Raise _ => False
     end
  /\ option_map letters
       match stage_two_trimming (Some s1) 5 with
       | Ok t => t
       | Raise _ => None
       end
     = Some ["--GTACGTAC--"; "--GTACGTAC--"; "--GTACGTAC--";
             "--TTTTTTTT--"]%string
  /\ match trim_alignment divergent_last "running" 4 threshold proportion
     with
     | Ok o => option_map letters (trimmed o)
               = Some ["TACGTA"; "TACGTA"; "TACGTA"; "TTTTTT"]%string
               /\ printed o = []
     | Raise _ => False
     end
  /\ trim_alignment divergent_first "running" 4 threshold proportion
     = Raise UnboundLocalError.
Proof. evaluate. Qed.

(** C7.  With proportion 1 and two rows the majority count is 2; the second
    column of [gap_column] holds 2 gaps, which is not more than 2, so the
    gaps are deleted from the tally and [most_common(1)[0]] indexes an empty
    list: the column is not classified, the scan raises [IndexError].  The
    same happens in pass C of a conserved alignment without any gap, whose
    rows pass B has masked at both ends. *)
Theorem column_of_gaps_raises :
  let threshold := Float.of_Q (3 # 4) in
  let proportion := Float.of_Q 1 in
  majority proportion 2 = Ok 2%Z
  /\ Bio.column gap_column 1 = Ok (list_ascii_of_string "--")
  /\ column_is_good 2 (list_ascii_of_string "--") = Raise IndexError
  /\ good_columns gap_column proportion = Raise IndexError
  /\ running_average gap_column 4 threshold proportion = Raise IndexError
  /\ option_map letters
       match s1 <- stage_one_trimming (Some conserved) 4
                     threshold proportion ;;
             stage_two_trimming s1 5 with
       | Ok t => t
       | Raise _ => None
       end
     = Some ["--GTACGTAC--"; "--GTACGTAC--"; "--GTACGTAC--";
             "--GTACGTAC--"]%string
  /\ trim_alignment conserved "running" 4 threshold proportion
     = Raise IndexError.
Proof. evaluate. Qed.

(* ------------------------------------------------------------------ *)
(** ** Slices and slice assignment *)

Section Slices.

Context {A : Type}.
Implicit Types (a : list A) (c d : A).

Lemma length_slice a start stop :
  length (Py.slice a start stop) = Nat.min stop (length a) - start.
Proof.
  unfold Py.slice. rewrite length_firstn, length_skipn. lia.
Qed.

Lemma nth_slice a start stop i d :
  i < stop - start -> nth i (Py.slice a start stop) d = nth (start + i) a d.
Proof.
  intros Hi. unfold Py.slice.
  rewrite nth_firstn.
  destruct (i <? stop - start) eqn:E.
  - apply nth_skipn.
  - apply Nat.ltb_ge in E. lia.
Qed.

Lemma length_assign_prefix k c a :
  length (Py.assign_prefix k c a) = length a.
Proof.
  unfold Py.assign_prefix.
  rewrite length_app, repeat_length, length_skipn. lia.
Qed.

Lemma length_assign_suffix k c a :
  length (Py.assign_suffix k c a) = length a.
Proof.
  unfold Py.assign_suffix.
  rewrite length_app, repeat_length, length_firstn. lia.
Qed.

Lemma nth_assign_prefix k c a i d :
  i < length a ->
  nth i (Py.assign_prefix k c a) d = if i <? k then c else nth i a d.
Proof.
  intros Hi. unfold Py.assign_prefix.
  destruct (i <? k) eqn:E.
  - apply Nat.ltb_lt in E.
    rewrite app_nth1 by (rewrite repeat_length; lia).
    apply nth_repeat_lt. lia.
  - apply Nat.ltb_ge in E.
    rewrite app_nth2 by (rewrite repeat_length; lia).
    rewrite repeat_length, nth_skipn. f_equal. lia.
Qed.

Lemma nth_assign_suffix k c a i d :
  i < length a ->
  nth i (Py.assign_suffix k c a) d = if k <=? i then c else nth i a d.
Proof.
  intros Hi. unfold Py.assign_suffix.
  destruct (k <=? i) eqn:E.
  - apply Nat.leb_le in E.
    rewrite app_nth2 by (rewrite length_firstn; lia).
    apply nth_repeat_lt. rewrite length_firstn. lia.
  - apply Nat.leb_gt in E.
    rewrite app_nth1 by (rewrite length_firstn; lia).
    rewrite nth_firstn.
    apply Nat.ltb_lt in E. now rewrite E.
Qed.

End Slices.

(* ------------------------------------------------------------------ *)
(** ** Row masking in stage two *)

(** Whatever the bounds, masking overwrites a prefix and a suffix of the row
    and nothing else. *)
Lemma mask_nth (row : list ascii) (lo hi i : nat) :
  i < length row ->
  nth i (Py.assign_suffix hi gap (Py.assign_prefix lo gap row)) gap
  = if (i <? lo) || (hi <=? i) then gap else nth i row gap.
Proof.
  intros Hi.
  rewrite nth_assign_suffix by (rewrite length_assign_prefix; exact Hi).
  rewrite nth_assign_prefix by exact Hi.
  destruct (hi <=? i), (i <? lo); reflexivity.
Qed.

(** What the row body returns when both scans succeed. *)
Lemma trim_row_found
      (consensus_array : list ascii) (sequence : SeqRecord)
      (window_size : nat) (old_start old_end : option nat)
      (gm : list bool) (i j : nat) :
  row_gm consensus_array sequence window_size = Ok gm ->
  first_run gm 0 = Some i ->
  first_run (rev gm) 0 = Some j ->
  trim_row consensus_array sequence window_size old_start old_end
  = Ok (Py.assign_suffix (fst (_get_ends sequence) + (length gm - j)) gap
          (Py.assign_prefix (fst (_get_ends sequence) + i) gap
             (Bio.seq sequence)),
        Some i, Some (length gm - j)).
Proof.
  intros Hgm Hfwd Hbwd.
  unfold trim_row. rewrite Hgm. cbn [Py.bind].
  rewrite Hfwd, Hbwd. cbn [assign_if_found option_map read_local Py.bind].
  now rewrite length_rev.
Qed.

(* ------------------------------------------------------------------ *)
(** ** What the two loops append *)

Ltac bind_inv H :=
  match type of H with
  | Py.bind ?c _ = Ok _ =>
      let E := fresh "E" in
      destruct c eqn:E; cbn [Py.bind] in H; [|discriminate H]
  end.

Lemma append_Ok (aln aln' : MultipleSeqAlignment) (r : SeqRecord) :
  Bio.append aln r = Ok aln' -> aln' = aln ++ [r].
Proof.
  unfold Bio.append. destruct aln as [|r0 tl].
  - intros [= <-]. reflexivity.
  - destruct (_ =? _); [intros [= <-]; reflexivity | discriminate].
Qed.

(** A surviving pass of stage one holds the slice [start:end] of every row,
    in order, after what was there. *)
Lemma stage_one_loop_Some (start stop : option nat) (rows : list SeqRecord) :
  forall acc out,
    stage_one_loop start stop rows acc = Ok (Some out) ->
    exists s e,
      (rows <> [] -> start = Some s /\ stop = Some e) /\
      out = acc ++ map (fun r => record_slice r s e) rows.
Proof.
  induction rows as [|r rest IH]; intros acc out H.
  - cbn in H. injection H as <-. exists 0, 0. split; [congruence|].
    cbn. now rewrite app_nil_r.
  - cbn [stage_one_loop] in H.
    destruct start as [s|]; [|discriminate H].
    destruct stop as [[|e]|]; try discriminate H.
    destruct (keep_row _); [|discriminate H].
    bind_inv H. apply append_Ok in E. subst a.
    apply IH in H. destruct H as (s' & e' & Hse & ->).
    exists s, (S e). split; [easy|].
    rewrite <- app_assoc. cbn [app map].
    destruct rest as [|r' rest'].
    + reflexivity.
    + destruct Hse as [[= ->] [= ->]]; [discriminate|]. reflexivity.
Qed.

Lemma trim_row_length (consensus_array : list ascii) (sequence : SeqRecord)
      (window_size : nat) (bs be bs' be' : option nat) (trim : list ascii) :
  trim_row consensus_array sequence window_size bs be = Ok (trim, bs', be') ->
  length trim = length (Bio.seq sequence).
Proof.
  unfold trim_row. intros H.
  bind_inv H. bind_inv H. bind_inv H.
  injection H as <- _ _.
  now rewrite length_assign_suffix, length_assign_prefix.
Qed.

(** A surviving pass of stage two holds one record for every row, in
    order, with the row's label and length. *)
Lemma stage_two_loop_Some (consensus_array : list ascii) (window_size : nat)
      (rows : list SeqRecord) :
  forall bs be acc out,
    stage_two_loop consensus_array rows window_size bs be acc
    = Ok (Some out) ->
    exists new, out = acc ++ new /\ Forall2 same_shape rows new.
Proof.
  induction rows as [|r rest IH]; intros bs be acc out H.
  - cbn in H. injection H as <-. exists []. split.
    + now rewrite app_nil_r.
    + constructor.
  - cbn [stage_two_loop] in H.
    bind_inv H. destruct a as [[trim bs'] be'].
    destruct (keep_row trim); [|discriminate H].
    bind_inv H. apply append_Ok in E0. subst a.
    apply IH in H. destruct H as (new & -> & Hnew).
    exists (_record_formatter trim (Bio.id r) :: new). split.
    + now rewrite <- app_assoc.
    + constructor; [|exact Hnew].
      split; [reflexivity|]. cbn. eapply trim_row_length, E.
Qed.

Lemma stage_one_trimming_Some (alignment : option MultipleSeqAlignment)
      (window_size : nat) (threshold proportion : float)
      (out : MultipleSeqAlignment) :
  stage_one_trimming alignment window_size threshold proportion
  = Ok (Some out) ->
  exists aln s e,
    alignment = Some aln /\ out = map (fun r => record_slice r s e) aln.
Proof.
  unfold stage_one_trimming. destruct alignment as [aln|]; [|discriminate].
  intros H. bind_inv H.
  apply stage_one_loop_Some in H. destruct H as (s & e & _ & ->).
  now exists aln, s, e.
Qed.

Lemma stage_two_trimming_Some (s1_trimmed : option MultipleSeqAlignment)
      (window_size : nat) (out : MultipleSeqAlignment) :
  stage_two_trimming s1_trimmed window_size = Ok (Some out) ->
  exists rows, s1_trimmed = Some rows /\ Forall2 same_shape rows out.
Proof.
  unfold stage_two_trimming. intros H. bind_inv H.
  destruct s1_trimmed as [rows|]; [|discriminate H].
  apply stage_two_loop_Some in H. destruct H as (new & -> & Hnew).
  now exists rows.
Qed.

Lemma report_trimmed (alignment : MultipleSeqAlignment)
      (t : option MultipleSeqAlignment) (o : outcome) :
  report alignment t = Ok o -> trimmed o = t.
Proof.
  unfold report. destruct (falsy t).
  - destruct alignment; [discriminate|]. now intros [= <-].
  - now intros [= <-].
Qed.

(** The three passes of a surviving alignment, laid out. *)
Lemma trim_alignment_Some (alignment : MultipleSeqAlignment) (method : string)
      (window_size : nat) (threshold proportion : float)
      (o : outcome) (out : MultipleSeqAlignment) :
  trim_alignment alignment method window_size threshold proportion = Ok o ->
  trimmed o = Some out ->
  out = alignment
  \/ exists s e s' e' s2,
       Forall2 same_shape (map (fun r => record_slice r s e) alignment) s2
       /\ out = map (fun r => record_slice r s' e') s2.
Proof.
  unfold trim_alignment. intros H Ht.
  destruct (String.eqb method "notrim").
  - apply report_trimmed in H. left. congruence.
  - right. bind_inv H. bind_inv H. bind_inv H.
    apply report_trimmed in H. rewrite Ht in H. subst a1.
    apply stage_one_trimming_Some in E1.
    destruct E1 as (s2 & s' & e' & -> & ->).
    apply stage_two_trimming_Some in E0.
    destruct E0 as (s1 & -> & Hshape).
    apply stage_one_trimming_Some in E.
    destruct E as (aln & s & e & [= <-] & ->).
    now exists s, e, s', e', s2.
Qed.

(* ------------------------------------------------------------------ *)
(** ** Invariants of a surviving alignment *)

(** C10.  When [trim_alignment] leaves an alignment in [self.trimmed], its
    rows carry the labels ([id]) of the input rows, one for one and in the
    same order; in particular there are as many rows as in the input. *)
Theorem trim_alignment_keeps_labels
        (alignment : MultipleSeqAlignment) (method : string)
        (window_size : nat) (threshold proportion : float)
        (o : outcome) (out : MultipleSeqAlignment) :
  trim_alignment alignment method window_size threshold proportion = Ok o ->
  trimmed o = Some out ->
  map Bio.id out = map Bio.id alignment /\ length out = length alignment.
Proof.
  intros H Ht.
  assert (Hid : map Bio.id out = map Bio.id alignment).
  { destruct (trim_alignment_Some _ _ _ _ _ _ _ H Ht)
      as [-> | (s & e & s' & e' & s2 & Hshape & ->)]; [reflexivity|].
    rewrite map_map. cbn [record_slice Bio.id].
    clear H Ht. revert s2 Hshape.
    induction alignment as [|r rest IH]; intros s2 Hshape;
      inversion Hshape as [|? r2 ? rest2 [Hr _] Hrest]; subst.
    - reflexivity.
    - cbn. cbn in Hr. rewrite Hr. f_equal. now apply IH. }
  split; [exact Hid|].
  rewrite <- (length_map Bio.id out), Hid. apply length_map.
Qed.

Lemma trim_alignment_keeps_labels_witness :
  map Bio.id
      [ row "t1" "TACGTA"; row "t2" "TACGTA"; row "t3" "TACGTA";
        row "t4" "TACGTA" ]
  = map Bio.id conserved
  /\ length [ row "t1" "TACGTA"; row "t2" "TACGTA"; row "t3" "TACGTA";
             row "t4" "TACGTA" ]
     = length conserved.
Proof.
  apply (trim_alignment_keeps_labels
           conserved "running" 4 (Float.of_Q (3 # 4)) (Float.of_Q (3 # 4))
           (mkOutcome
              (Some [ row "t1" "TACGTA"; row "t2" "TACGTA"; row "t3" "TACGTA";
                      row "t4" "TACGTA" ]) []));
    vm_compute; reflexivity.
Defined.

(** C9.  When [trim_alignment] leaves an alignment in [self.trimmed] and the
    input rows all have [width] letters, the rows of the result all have
    one length, and it is at most [width]. *)
Theorem trim_alignment_width
        (alignment : MultipleSeqAlignment) (method : string)
        (window_size : nat) (threshold proportion : float)
        (o : outcome) (out : MultipleSeqAlignment) (width : nat) :
  (forall r, In r alignment -> length (Bio.seq r) = width) ->
  trim_alignment alignment method window_size threshold proportion = Ok o ->
  trimmed o = Some out ->
  exists width',
    width' <= width /\ forall r, In r out -> length (Bio.seq r) = width'.
Proof.
  intros Hwf H Ht.
  destruct (trim_alignment_Some _ _ _ _ _ _ _ H Ht)
    as [-> | (s & e & s' & e' & s2 & Hshape & ->)].
  - exists width. split; [lia | exact Hwf].
  - exists (Nat.min e' (Nat.min e width - s) - s'). split; [lia|].
    intros r Hr. apply in_map_iff in Hr. destruct Hr as (r2 & <- & Hr2).
    cbn [record_slice Bio.seq]. rewrite length_slice.
    assert (Hlen : length (Bio.seq r2) = Nat.min e width - s).
    { clear H Ht. revert s2 Hshape Hr2.
      induction alignment as [|r0 rest IH]; intros s2 Hshape Hr2;
        inversion Hshape as [|? r2' ? rest2 [_ Hr] Hrest]; subst.
      - destruct Hr2.
      - destruct Hr2 as [-> | Hr2].
        + rewrite Hr. cbn [record_slice Bio.seq]. rewrite length_slice.
          rewrite (Hwf r0) by now left. reflexivity.
        + eapply IH; eauto. intros r' Hr'. apply Hwf. now right. }
    now rewrite Hlen.
Qed.

Lemma trim_alignment_width_witness :
  exists width',
    width' <= 14
    /\ forall r,
         In r [ row "t1" "TACGTA"; row "t2" "TACGTA"; row "t3" "TACGTA";
                row "t4" "TACGTA" ] ->
         length (Bio.seq r) = width'.
Proof.
  apply (trim_alignment_width
           conserved "running" 4 (Float.of_Q (3 # 4)) (Float.of_Q (3 # 4))
           (mkOutcome
              (Some [ row "t1" "TACGTA"; row "t2" "TACGTA"; row "t3" "TACGTA";
                      row "t4" "TACGTA" ]) [])).
  - intros r Hr. cbn in Hr.
    repeat (destruct Hr as [<- | Hr]; [reflexivity|]). destruct Hr.
  - vm_compute. reflexivity.
  - reflexivity.
Defined.

(* ------------------------------------------------------------------ *)
(** ** Counters *)

Section Counters.

Implicit Types (d : Py.Counter) (l : list ascii) (a c : ascii).

Lemma incr_keys c d a :
  In a (keys (Py.incr c d)) <-> a = c \/ In a (keys d).
Proof.
  induction d as [|[k v] tl IH]; cbn.
  - intuition congruence.
  - destruct (Ascii.eqb_spec k c) as [->|Hne]; cbn.
    + intuition congruence.
    + rewrite IH. intuition congruence.
Qed.

Lemma incr_NoDup c d : NoDup (keys d) -> NoDup (keys (Py.incr c d)).
Proof.
  induction d as [|[k v] tl IH]; cbn; intros H.
  - repeat constructor. intros [].
  - inversion H as [|? ? Hk Htl]; subst.
    destruct (Ascii.eqb_spec k c) as [->|Hne]; cbn.
    + now constructor.
    + constructor; [|now apply IH].
      fold (keys (Py.incr c tl)). rewrite incr_keys.
      intros [->|Hin]; [now apply Hne | now apply Hk].
Qed.

Lemma get_incr c d a :
  Py.get a (Py.incr c d)
  = if Ascii.eqb c a then S (Py.get a d) else Py.get a d.
Proof.
  induction d as [|[k v] tl IH]; cbn.
  - destruct (Ascii.eqb_spec c a); reflexivity.
  - destruct (Ascii.eqb_spec k c) as [->|Hne]; cbn.
    + destruct (Ascii.eqb_spec c a); reflexivity.
    + destruct (Ascii.eqb_spec k a) as [->|Hka].
      * destruct (Ascii.eqb_spec c a); [congruence | reflexivity].
      * apply IH.
Qed.

Lemma get_absent a d : ~ In a (keys d) -> Py.get a d = 0.
Proof.
  induction d as [|[k v] tl IH]; cbn; intros H; [reflexivity|].
  destruct (Ascii.eqb_spec k a) as [->|]; [exfalso; now apply H; left|].
  apply IH. intros Hin. apply H. now right.
Qed.

Lemma In_get a v d :
  NoDup (keys d) -> (In (a, v) d <-> In a (keys d) /\ Py.get a d = v).
Proof.
  induction d as [|[k w] tl IH]; cbn; intros H.
  - tauto.
  - inversion H as [|? ? Hk Htl]; subst. specialize (IH Htl).
    destruct (Ascii.eqb_spec k a) as [->|Hne].
    + split.
      * intros [[= ->]|Hin]; [tauto|].
        exfalso. apply Hk. apply IH in Hin. tauto.
      * intros [_ ->]. now left.
    + rewrite IH. split.
      * intros [[= -> _]|Hin]; [congruence | tauto].
      * intros [[->|Hin] Hv]; [congruence | tauto].
Qed.

Lemma tally_of_keys l : forall d a,
  In a (keys (tally_of l d)) <-> In a l \/ In a (keys d).
Proof.
  induction l as [|c tl IH]; intros d a; cbn.
  - tauto.
  - unfold tally_of in IH. rewrite IH, incr_keys. intuition congruence.
Qed.

Lemma tally_of_NoDup l : forall d,
  NoDup (keys d) -> NoDup (keys (tally_of l d)).
Proof.
  induction l as [|c tl IH]; intros d H; cbn; [exact H|].
  apply IH, incr_NoDup, H.
Qed.

Lemma tally_of_get l : forall d a,
  Py.get a (tally_of l d) = count_occ ascii_dec l a + Py.get a d.
Proof.
  induction l as [|c tl IH]; intros d a; cbn; [reflexivity|].
  unfold tally_of in IH. rewrite IH, get_incr.
  destruct (ascii_dec c a) as [->|Hne].
  - rewrite Ascii.eqb_refl. lia.
  - destruct (Ascii.eqb_spec c a); [congruence | reflexivity].
Qed.

(** The entries of [Counter(l)] are the letters of [l] with their number
    of occurrences. *)
Lemma count_entries l a v :
  In (a, v) (Py.count l) <-> In a l /\ v = count_occ ascii_dec l a.
Proof.
  unfold Py.count. fold (tally_of l []).
  rewrite In_get by (apply tally_of_NoDup; constructor).
  rewrite tally_of_keys, tally_of_get. cbn. rewrite Nat.add_0_r.
  intuition congruence.
Qed.

Lemma count_NoDup l : NoDup (keys (Py.count l)).
Proof. apply (tally_of_NoDup l []). constructor. Qed.

End Counters.

(* ------------------------------------------------------------------ *)
(** ** The consensus *)

Section Consensus.

Lemma tally_spec (n : nat) (rows : list SeqRecord) :
  forall d k,
    Bio.tally n rows d k
    = (tally_of (atoms rows n) d, k + length (atoms rows n)).
Proof.
  induction rows as [|r tl IH]; intros d k; cbn [Bio.tally].
  - cbn. now rewrite Nat.add_0_r.
  - assert (Hg : forall c, negb (Ascii.eqb c "-") && negb (Ascii.eqb c ".")
                           = negb (Bio.is_gap_letter c)).
    { intros c. unfold Bio.is_gap_letter. now rewrite negb_orb. }
    unfold atoms, column_letters in *. cbn [flat_map].
    rewrite filter_app, length_app.
    destruct (nth_error (Bio.seq r) n) as [c|]; cbn [filter app length].
    + rewrite Hg.
      destruct (negb (Bio.is_gap_letter c)); rewrite IH; cbn;
        f_equal; lia.
    + rewrite IH. reflexivity.
Qed.

Lemma maxima_spec (entries : list (ascii * nat)) :
  forall M s M' s',
    Bio.maxima entries M s = (M', s') ->
    s <= s'
    /\ (forall k v, In (k, v) entries -> v <= s')
    /\ (forall a, In a M' <-> (In a M /\ s' = s) \/ In (a, s') entries)
    /\ (s' = s \/ exists k, In (k, s') entries)
    /\ (NoDup (M ++ keys entries) -> NoDup M').
Proof.
  induction entries as [|[atom k] tl IH]; intros M s M' s' H;
    cbn [Bio.maxima] in H.
  - injection H as <- <-. cbn. rewrite app_nil_r. intuition.
  - destruct (s <? k) eqn:Hlt; [|destruct (k =? s) eqn:Heq].
    + apply Nat.ltb_lt in Hlt.
      destruct (IH _ _ _ _ H) as (Hs & Hle & Hin & Hatt & Hnd).
      repeat split.
      * lia.
      * intros k' v [[= <- <-]|Hv]; [exact Hs | eauto].
      * rewrite Hin. cbn. intros [[[<-|[]] <-]|Htl]; auto.
      * rewrite Hin. cbn. intros [[_ ->]|[[= -> ->]|Htl]]; auto; lia.
      * right. destruct Hatt as [->|[k' Hk']]; [exists atom | exists k'];
          cbn; auto.
      * intros HM. apply Hnd. cbn in HM. cbn.
        apply NoDup_app_remove_l in HM. exact HM.
    + apply Nat.eqb_eq in Heq. subst k.
      destruct (IH _ _ _ _ H) as (Hs & Hle & Hin & Hatt & Hnd).
      repeat split.
      * exact Hs.
      * intros k' v [[= <- <-]|Hv]; [exact Hs | eauto].
      * rewrite Hin, in_app_iff. cbn.
        intros [[[HM|[<-|[]]] ->]|Htl]; auto.
      * rewrite Hin, in_app_iff. cbn.
        intros [[HM ->]|[[= -> ->]|Htl]]; auto.
      * destruct Hatt as [->|[k' Hk']]; [now left|].
        right. exists k'. now right.
      * intros HM. apply Hnd. cbn in HM.
        now rewrite <- app_assoc.
    + apply Nat.ltb_ge in Hlt. apply Nat.eqb_neq in Heq.
      destruct (IH _ _ _ _ H) as (Hs & Hle & Hin & Hatt & Hnd).
      repeat split.
      * exact Hs.
      * intros k' v [[= <- <-]|Hv]; [lia | eauto].
      * rewrite Hin. cbn. tauto.
      * rewrite Hin. cbn. intros [HM|[[= -> ->]|Htl]]; auto; lia.
      * destruct Hatt as [->|[k' Hk']]; [now left|].
        right. exists k'. now right.
      * intros HM. apply Hnd. cbn in HM.
        eapply NoDup_remove_1, HM.
Qed.

Lemma NoDup_singleton {A} (l : list A) (c : A) :
  NoDup l -> In c l -> (forall a, In a l -> a = c) -> l = [c].
Proof.
  intros Hnd Hc Hall. destruct l as [|x [|y tl]].
  - destruct Hc.
  - f_equal. apply Hall. now left.
  - exfalso. inversion Hnd as [|? ? Hx _]; subst. apply Hx.
    rewrite (Hall x) by (now left). rewrite <- (Hall y) by (right; now left).
    now left.
Qed.

(** When a ratio of two counts reaches a fraction. *)
Lemma ratio_reaches (a : Z) (b : positive) (s k : nat) :
  0 < k ->
  Qle_bool (a # b) (inject_Z (Z.of_nat s) / inject_Z (Z.of_nat k))%Q = true
  <-> (a * Z.of_nat k <= Z.pos b * Z.of_nat s)%Z.
Proof.
  intros Hk. rewrite Qle_bool_iff.
  assert (Hpos : (0 < inject_Z (Z.of_nat k))%Q).
  { unfold Qlt. cbn. lia. }
  split.
  - intros H.
    apply (Qmult_le_compat_r _ _ (inject_Z (Z.of_nat k))) in H;
      [|now apply Qlt_le_weak].
    rewrite Qmult_comm, (Qmult_comm (_ / _)), Qmult_div_r in H
      by (intros E; rewrite E in Hpos; discriminate).
    unfold Qle in H. cbn in H. lia.
  - intros H. apply Qle_shift_div_l; [exact Hpos|].
    unfold Qle. cbn. lia.
Qed.

(** The letter [dumb_consensus] calls at a column, when it is not the
    ambiguity letter. *)
Lemma consensus_letter_spec (aln : MultipleSeqAlignment) (n : nat)
      (c : ascii) :
  c <> Bio.ambiguous ->
  Bio.consensus_letter aln n = c
  <-> In c (atoms aln n)
      /\ (forall d, In d (atoms aln n) -> d <> c ->
                    occurrences aln n d < occurrences aln n c)
      /\ 7 * length (atoms aln n) <= 10 * occurrences aln n c.
Proof.
  intros HX. unfold Bio.consensus_letter, occurrences.
  rewrite tally_spec. cbn [Nat.add].
  change (tally_of (atoms aln n) []) with (Py.count (atoms aln n)).
  set (T := atoms aln n).
  destruct (Bio.maxima (Py.count T) [] 0) as [M' s'] eqn:Hmax.
  destruct (maxima_spec _ _ _ _ _ Hmax) as (_ & Hle & Hin & Hatt & Hnd).
  assert (HinT : forall a, In a M' <->
                           In a T /\ s' = count_occ ascii_dec T a).
  { intros a. rewrite Hin, count_entries. cbn. tauto. }
  assert (HleT : forall a, In a T -> count_occ ascii_dec T a <= s').
  { intros a Ha. apply (Hle a). apply count_entries. auto. }
  assert (HndM : NoDup M') by (apply Hnd; cbn; apply count_NoDup).
  clear Hle Hin Hnd.
  split.
  - intros Hc.
    assert (HM : M' = [c] /\
                 Qle_bool Bio.threshold
                   (inject_Z (Z.of_nat s') / inject_Z (Z.of_nat (length T)))
                 = true).
    { destruct M' as [|x [|y tl]]; try congruence.
      destruct (Qle_bool _ _); [|congruence]. now subst x. }
    destruct HM as [-> Hq].
    assert (HcT : In c T /\ s' = count_occ ascii_dec T c)
      by (apply HinT; now left).
    destruct HcT as [HcT ->]. split; [exact HcT|]. split.
    + intros d Hd Hdc. specialize (HleT d Hd).
      destruct (Nat.eq_dec (count_occ ascii_dec T d)
                           (count_occ ascii_dec T c)) as [E|]; [|lia].
      exfalso. apply Hdc.
      assert (Hd' : In d [c]) by (apply HinT; split; congruence).
      destruct Hd' as [->|[]]. reflexivity.
    + unfold Bio.threshold in Hq.
      apply ratio_reaches in Hq; [lia|].
      destruct T; [destruct HcT | cbn; lia].
  - intros (HcT & Hdom & Hratio).
    assert (Hpos : 0 < count_occ ascii_dec T c)
      by (now apply count_occ_In).
    assert (Hs : s' = count_occ ascii_dec T c).
    { destruct Hatt as [->|[k Hk]].
      - specialize (HleT c HcT). lia.
      - apply count_entries in Hk. destruct Hk as [Hk ->].
        destruct (ascii_dec k c) as [->|Hkc]; [reflexivity|].
        specialize (Hdom k Hk Hkc). specialize (HleT c HcT). lia. }
    assert (HM : M' = [c]).
    { apply NoDup_singleton; [exact HndM | now apply HinT |].
      intros a Ha. apply HinT in Ha. destruct Ha as [Ha Hsa].
      destruct (ascii_dec a c) as [|Hac]; [assumption|].
      specialize (Hdom a Ha Hac). lia. }
    rewrite HM.
    assert (Hq : Qle_bool Bio.threshold
                   (inject_Z (Z.of_nat s') / inject_Z (Z.of_nat (length T)))
                 = true).
    { unfold Bio.threshold. apply ratio_reaches; [|lia].
      destruct T; [destruct HcT | cbn; lia]. }
    now rewrite Hq.
Qed.

End Consensus.

(** C3, amended.  [_alignment_consensus] returns one letter for every
    column.  The letter of a column is a letter [c] other than the gap
    marker exactly when [c] is not ["X"], occurs in the column among the
    letters other than ["-"] and ["."], occurs there more often than every
    other such letter (letters compared as they are, upper and lower case
    apart), and accounts for at least 0.7 of these letters; in every other
    case, ties for the greatest count included, it is the gap marker. *)
Theorem alignment_consensus_spec
        (aln : MultipleSeqAlignment) (consensus : list ascii) :
  _alignment_consensus (Some aln) = Ok consensus ->
  length consensus = get_alignment_length aln
  /\ forall n c,
       n < get_alignment_length aln ->
       c <> gap ->
       (nth n consensus gap = c
        <-> c <> "X"%char
            /\ In c (atoms aln n)
            /\ (forall d, In d (atoms aln n) -> d <> c ->
                          occurrences aln n d < occurrences aln n c)
            /\ 7 * length (atoms aln n) <= 10 * occurrences aln n c).
Proof.
  cbn [_alignment_consensus]. intros [= <-].
  unfold Bio.dumb_consensus. rewrite map_map. split.
  - now rewrite length_map, length_seq.
  - intros n c Hn Hc.
    set (f := fun x => if Ascii.eqb (Bio.consensus_letter aln x) "X"
                       then gap else Bio.consensus_letter aln x).
    rewrite (nth_indep _ gap (f 0)) by (now rewrite length_map, length_seq).
    rewrite map_nth, seq_nth by exact Hn. cbn [Nat.add]. unfold f.
    destruct (Ascii.eqb_spec (Bio.consensus_letter aln n) "X") as [E|E].
    + split; [congruence|]. intros (HX & Hrest).
      apply consensus_letter_spec in Hrest; [|exact HX].
      congruence.
    + split.
      * intros <-. split; [exact E|]. now apply consensus_letter_spec.
      * intros (HX & Hrest). now apply consensus_letter_spec.
Qed.

Lemma alignment_consensus_spec_witness :
  length (list_ascii_of_string "AC") = get_alignment_length half_gapped
  /\ forall n c,
       n < get_alignment_length half_gapped ->
       c <> gap ->
       (nth n (list_ascii_of_string "AC") gap = c
        <-> c <> "X"%char
            /\ In c (atoms half_gapped n)
            /\ (forall d, In d (atoms half_gapped n) -> d <> c ->
                          occurrences half_gapped n d
                          < occurrences half_gapped n c)
            /\ 7 * length (atoms half_gapped n)
               <= 10 * occurrences half_gapped n c).
Proof.
  apply (alignment_consensus_spec half_gapped (list_ascii_of_string "AC")).
  vm_compute. reflexivity.
Defined.

(* ------------------------------------------------------------------ *)
(** ** The moving average *)

Section MovingAverage.

Lemma length_weights (w : nat) : length (Numpy.weights w) = w.
Proof. unfold Numpy.weights. apply repeat_length. Qed.

Lemma nth_weights (w i : nat) :
  i < w ->
  nth i (Numpy.weights w) Float.zero = Float.div Float.one (Float.of_nat w).
Proof. intros Hi. unfold Numpy.weights. now apply nth_repeat_lt. Qed.

Lemma nth_of_bool (g : list bool) (i : nat) :
  nth i (map Numpy.of_bool g) Float.zero = Numpy.of_bool (nth i g false).
Proof. apply (map_nth Numpy.of_bool g false i). Qed.

Lemma filter_twice {A} (p q : A -> bool) (l : list A) :
  filter p (filter q l) = filter (fun x => q x && p x) l.
Proof.
  induction l as [|x tl IH]; [reflexivity|].
  cbn [filter]. destruct (q x); cbn [filter andb]; now rewrite IH.
Qed.

Lemma repeated_sum_S (x : float) (h : nat) :
  repeated_sum x (S h) = Float.add (repeated_sum x h) x.
Proof. reflexivity. Qed.

(** numpy's loop over terms that are [x1] where [p] holds and [x0]
    elsewhere, when adding [x0] changes none of the partial sums: the loop
    leaves the sum of as many [x1] as [p] holds. *)
Lemma fold_repeated_sum (p : nat -> bool) (x1 x0 : float)
      (f : nat -> float) (bound : nat) (l : list nat) :
  (forall m, In m l -> f m = if p m then x1 else x0) ->
  (forall h, h <= bound ->
             Float.add (repeated_sum x1 h) x0 = repeated_sum x1 h) ->
  forall h,
    h + length (filter p l) <= bound ->
    fold_left (fun tmp m => Float.add tmp (f m)) l (repeated_sum x1 h)
    = repeated_sum x1 (h + length (filter p l)).
Proof.
  intros Hf Habs. induction l as [|m tl IH]; intros h Hh.
  - cbn. now rewrite Nat.add_0_r.
  - cbn [fold_left filter] in *. rewrite (Hf m) by now left.
    assert (Hf' : forall m', In m' tl -> f m' = if p m' then x1 else x0)
      by (intros m' Hm'; apply Hf; now right).
    destruct (p m); cbn [length] in *.
    + rewrite <- repeated_sum_S. rewrite (IH Hf') by lia. f_equal. lia.
    + rewrite Habs by lia. now apply IH.
Qed.

(** The window lies on the data: the entry is the sum of as many products
    [1.0 * weight] as the window holds [True]. *)
Lemma conv_at_data (g : list bool) (w n : nat) (weight x1 : float) :
  weight = Float.div Float.one (Float.of_nat w) ->
  x1 = Float.mul Float.one weight ->
  (forall h, h <= w ->
     Float.add (repeated_sum x1 h) (Float.mul Float.zero weight)
     = repeated_sum x1 h) ->
  Numpy.conv_at (map Numpy.of_bool g) (Numpy.weights w) n
  = repeated_sum x1 (hits g w n).
Proof.
  intros Hweight Hx1 Habs. unfold Numpy.conv_at, Numpy.overlap, hits.
  rewrite length_map, length_weights.
  set (window := fun m => (m <=? n) && (n - m <? w)).
  set (p := fun m => nth m g false).
  assert (Hcount :
            length (filter (fun m => (m <=? n) && (n - m <? w) && nth m g false)
                           (List.seq 0 (length g)))
            = length (filter p (filter window (List.seq 0 (length g)))))
    by (now rewrite filter_twice).
  rewrite Hcount.
  change Float.zero with (repeated_sum x1 0) at 3.
  apply (fold_repeated_sum p x1 (Float.mul Float.zero weight) _ w).
  - intros m Hm. apply filter_In in Hm. destruct Hm as [_ Hm].
    unfold window in Hm. apply andb_prop in Hm. destruct Hm as [_ Hm].
    apply Nat.ltb_lt in Hm.
    rewrite nth_of_bool, nth_weights by exact Hm. unfold p.
    rewrite Hx1, Hweight. destruct (nth m g false); reflexivity.
  - exact Habs.
  - cbn [Nat.add]. rewrite <- Hcount.
    apply Nat.le_trans with (length (List.seq (n + 1 - w) w));
      [|now rewrite length_seq].
    apply NoDup_incl_length.
    + apply NoDup_filter, seq_NoDup.
    + intros m Hm. apply filter_In in Hm. destruct Hm as [_ Hp].
      apply andb_prop in Hp. destruct Hp as [Hp _].
      apply andb_prop in Hp. destruct Hp as [H1 H2].
      apply Nat.leb_le in H1. apply Nat.ltb_lt in H2.
      apply in_seq. lia.
Qed.

(** The window is the longer: the entry is summed along the weights. *)
Lemma conv_at_weights (g : list bool) (w n : nat) (weight x1 : float) :
  weight = Float.div Float.one (Float.of_nat w) ->
  x1 = Float.mul weight Float.one ->
  (forall h, h <= w ->
     Float.add (repeated_sum x1 h) (Float.mul weight Float.zero)
     = repeated_sum x1 h) ->
  Numpy.conv_at (Numpy.weights w) (map Numpy.of_bool g) n
  = repeated_sum x1 (hits_w g w n).
Proof.
  intros Hweight Hx1 Habs. unfold Numpy.conv_at, Numpy.overlap, hits_w.
  rewrite length_map, length_weights.
  set (window := fun m => (m <=? n) && (n - m <? length g)).
  set (p := fun m => nth (n - m) g false).
  assert (Hcount :
            length (filter (fun m => (m <=? n) && nth (n - m) g false)
                           (List.seq 0 w))
            = length (filter p (filter window (List.seq 0 w)))).
  { rewrite filter_twice. f_equal. apply filter_ext. intros m.
    unfold window, p. destruct (m <=? n); [|reflexivity]. cbn [andb].
    destruct (nth (n - m) g false) eqn:E; [|now rewrite andb_false_r].
    destruct (Nat.ltb_spec (n - m) (length g)) as [|Hge]; [reflexivity|].
    rewrite nth_overflow in E by exact Hge. discriminate. }
  rewrite Hcount.
  change Float.zero with (repeated_sum x1 0) at 3.
  apply (fold_repeated_sum p x1 (Float.mul weight Float.zero) _ w).
  - intros m Hm. apply filter_In in Hm. destruct Hm as [Hm _].
    apply in_seq in Hm.
    rewrite nth_of_bool, nth_weights by lia. unfold p.
    rewrite Hx1, Hweight. destruct (nth (n - m) g false); reflexivity.
  - exact Habs.
  - cbn [Nat.add].
    apply Nat.le_trans with (length (filter window (List.seq 0 w)));
      [apply filter_length_le|].
    apply Nat.le_trans with (length (List.seq 0 w));
      [apply filter_length_le | now rewrite length_seq].
Qed.

End MovingAverage.

Section ConvolveSame.

Lemma firstn_seq (n : nat) : forall s len,
  firstn n (List.seq s len) = List.seq s (Nat.min n len).
Proof.
  induction n as [|n IH]; intros s [|len]; cbn; try reflexivity.
  now rewrite IH.
Qed.

Lemma central_part {B} (f : nat -> B) (total off len : nat) :
  off + len <= total ->
  firstn len (skipn off (map f (List.seq 0 total)))
  = map f (List.seq off len).
Proof.
  intros H. rewrite skipn_map, skipn_seq, firstn_map, firstn_seq.
  cbn [Nat.add]. f_equal. f_equal. lia.
Qed.

Lemma half_le (n : nat) : n / 2 <= n.
Proof. apply Nat.Div0.div_le_upper_bound. lia. Qed.

(** The data are at least as long as the window: entry [k] of the result
    is entry [(w - 1) / 2 + k] of the full convolution of the data. *)
Lemma convolve_same_data (g : list bool) (w : nat) :
  1 <= w <= length g ->
  Numpy.convolve_same (map Numpy.of_bool g) (Numpy.weights w)
  = Ok (map (Numpy.conv_at (map Numpy.of_bool g) (Numpy.weights w))
            (List.seq ((w - 1) / 2) (length g))).
Proof.
  intros [Hw Hg]. unfold Numpy.convolve_same.
  rewrite length_map, length_weights.
  destruct (Nat.ltb_spec (length g) w) as [|_]; [lia|].
  rewrite length_map, length_weights.
  destruct (Nat.eqb_spec (length g) 0) as [|_]; [lia|].
  destruct (Nat.eqb_spec w 0) as [|_]; [lia|].
  unfold Numpy.convolve_full. rewrite length_map, length_weights.
  rewrite central_part; [reflexivity|].
  pose proof (half_le (w - 1)). lia.
Qed.

(** The window is the longer: numpy smooths the weights with the data,
    and the result has the length of the window. *)
Lemma convolve_same_weights (g : list bool) (w : nat) :
  1 <= length g < w ->
  Numpy.convolve_same (map Numpy.of_bool g) (Numpy.weights w)
  = Ok (map (Numpy.conv_at (Numpy.weights w) (map Numpy.of_bool g))
            (List.seq ((length g - 1) / 2) w)).
Proof.
  intros [Hg Hw]. unfold Numpy.convolve_same.
  rewrite length_map, length_weights.
  destruct (Nat.ltb_spec (length g) w) as [_|]; [|lia].
  rewrite length_map, length_weights.
  destruct (Nat.eqb_spec w 0) as [|_]; [lia|].
  destruct (Nat.eqb_spec (length g) 0) as [|_]; [lia|].
  unfold Numpy.convolve_full. rewrite length_map, length_weights.
  rewrite central_part; [reflexivity|].
  pose proof (half_le (length g - 1)). lia.
Qed.

Lemma convolve_same_empty (g : list bool) (w : nat) :
  length g = 0 ->
  Numpy.convolve_same (map Numpy.of_bool g) (Numpy.weights w)
  = Raise ValueError.
Proof.
  intros Hg. unfold Numpy.convolve_same.
  rewrite length_map, length_weights, Hg.
  destruct w as [|w]; cbn [Nat.ltb Nat.leb].
  - now rewrite length_map, Hg.
  - now rewrite length_weights, length_map, Hg.
Qed.

Lemma nth_true_lt (g : list bool) (m : nat) :
  nth m g false = true -> m < length g.
Proof.
  intros H. destruct (Nat.lt_ge_cases m (length g)) as [|Hge]; [assumption|].
  rewrite nth_overflow in H by exact Hge. discriminate.
Qed.

(** A window of [w] positions holds at most [w] hits, and holds [w] only
    when it lies inside the data and covers [True] only. *)
Lemma hits_le (g : list bool) (w n : nat) : hits g w n <= w.
Proof.
  unfold hits.
  apply Nat.le_trans with (length (List.seq (n + 1 - w) w));
    [|now rewrite length_seq].
  apply NoDup_incl_length.
  - apply NoDup_filter, seq_NoDup.
  - intros m Hm. apply filter_In in Hm. destruct Hm as [_ Hp].
    apply andb_prop in Hp. destruct Hp as [Hp _].
    apply andb_prop in Hp. destruct Hp as [H1 H2].
    apply Nat.leb_le in H1. apply Nat.ltb_lt in H2.
    apply in_seq. lia.
Qed.

Lemma hits_full (g : list bool) (w n : nat) :
  1 <= w ->
  hits g w n = w
  <-> w <= n + 1
      /\ forall m, n + 1 - w <= m <= n -> nth m g false = true.
Proof.
  intros Hw. unfold hits.
  set (p := fun m => (m <=? n) && (n - m <? w) && nth m g false).
  assert (Hin : forall m, In m (filter p (List.seq 0 (length g))) ->
                          m <= n /\ n - m < w /\ nth m g false = true).
  { intros m Hm. apply filter_In in Hm. destruct Hm as [_ Hp].
    unfold p in Hp.
    apply andb_prop in Hp. destruct Hp as [Hp H3].
    apply andb_prop in Hp. destruct Hp as [H1 H2].
    apply Nat.leb_le in H1. apply Nat.ltb_lt in H2. auto. }
  split.
  - intros Hlen.
    assert (Hall : incl (List.seq (n + 1 - w) w)
                        (filter p (List.seq 0 (length g)))).
    { apply NoDup_length_incl.
      - apply NoDup_filter, seq_NoDup.
      - rewrite length_seq. lia.
      - intros m Hm. apply Hin in Hm. apply in_seq. lia. }
    assert (Hwn : w <= n + 1).
    { assert (Hlast : In (n + 1 - w + (w - 1)) (List.seq (n + 1 - w) w))
        by (apply in_seq; lia).
      apply Hall, Hin in Hlast. lia. }
    split; [exact Hwn|].
    intros m Hm.
    assert (Hm' : In m (List.seq (n + 1 - w) w)) by (apply in_seq; lia).
    apply Hall, Hin in Hm'. tauto.
  - intros [Hwn Htrue].
    apply Nat.le_antisymm; [apply hits_le|].
    apply Nat.le_trans with (length (List.seq (n + 1 - w) w));
      [now rewrite length_seq|].
    apply NoDup_incl_length; [apply seq_NoDup|].
    intros m Hm. apply in_seq in Hm.
    assert (Hg : nth m g false = true) by (apply Htrue; lia).
    apply filter_In. split.
    + apply in_seq. apply nth_true_lt in Hg. lia.
    + unfold p. rewrite Hg.
      destruct (Nat.leb_spec m n); [|lia].
      destruct (Nat.ltb_spec (n - m) w); [reflexivity | lia].
Qed.

(** Counted along a window longer than the data, some position of the
    window misses the data. *)
Lemma hits_w_lt (g : list bool) (w n : nat) :
  length g < w -> hits_w g w n < w.
Proof.
  intros Hg. unfold hits_w.
  set (p := fun m => (m <=? n) && nth (n - m) g false).
  pose proof (filter_length_le p (List.seq 0 w)) as Hle.
  rewrite length_seq in Hle.
  destruct (Nat.eq_dec (length (filter p (List.seq 0 w))) w) as [E|]; [|lia].
  exfalso.
  assert (E' : length (filter p (List.seq 0 w)) = length (List.seq 0 w))
    by now rewrite length_seq.
  apply filter_length_forallb in E'. clear E. rename E' into E.
  rewrite forallb_forall in E.
  assert (H0 : p 0 = true) by (apply E, in_seq; lia).
  assert (Hl : p (w - 1) = true) by (apply E, in_seq; lia).
  unfold p in H0, Hl.
  apply andb_prop in H0. destruct H0 as [_ H0].
  apply andb_prop in Hl. destruct Hl as [Hl _].
  rewrite Nat.sub_0_r in H0. apply nth_true_lt in H0.
  apply Nat.leb_le in Hl. lia.
Qed.

End ConvolveSame.

(* ------------------------------------------------------------------ *)
(** ** The smoothed comparison of stage two *)

Section SmoothedComparison.

Lemma Ok_inj {A} (a b : A) : Ok a = Ok b -> a = b.
Proof. congruence. Qed.

Lemma nth_map_lt {A B} (f : A -> B) (l : list A) (i : nat) (d : B)
      (d' : A) :
  i < length l -> nth i (map f l) d = f (nth i l d').
Proof.
  intros Hi. rewrite (nth_indep _ d (f d')) by now rewrite length_map.
  apply map_nth.
Qed.

Lemma nth_map_seq (F : nat -> bool) (s n k : nat) :
  nth k (map F (List.seq s n)) false = if k <? n then F (s + k) else false.
Proof.
  destruct (Nat.ltb_spec k n) as [Hk|Hk].
  - rewrite (nth_indep _ false (F 0))
      by (now rewrite length_map, length_seq).
    now rewrite map_nth, seq_nth.
  - apply nth_overflow. now rewrite length_map, length_seq.
Qed.

(** The sums that a window of five reaches are [0.0], [0.2], [0.4],
    [0.6000000000000001], [0.8] and [1.0]: adding [0.0] changes none of
    them, and only the last exceeds [0.99]. *)
Lemma window_of_five (h : nat) :
  h <= 5 ->
  let weight := Float.div Float.one (Float.of_nat 5) in
  let on_data := repeated_sum (Float.mul Float.one weight) h in
  let on_weights := repeated_sum (Float.mul weight Float.one) h in
  Float.add on_data (Float.mul Float.zero weight) = on_data
  /\ Float.add on_weights (Float.mul weight Float.zero) = on_weights
  /\ Float.ltb (Float.of_Q (99 # 100)) on_data = (5 <=? h)
  /\ Float.ltb (Float.of_Q (99 # 100)) on_weights = (5 <=? h).
Proof.
  intros Hh.
  do 6 (destruct h as [|h]; [vm_compute; repeat split; reflexivity|]).
  lia.
Qed.

Lemma smoothed_data (g : list bool) (n : nat) :
  Float.ltb (Float.of_Q (99 # 100))
            (Numpy.conv_at (map Numpy.of_bool g) (Numpy.weights 5) n)
  = (5 <=? hits g 5 n).
Proof.
  rewrite (conv_at_data g 5 n _ _ eq_refl eq_refl)
    by (intros h Hh; apply (window_of_five h Hh)).
  apply (window_of_five _ (hits_le g 5 n)).
Qed.

Lemma hits_w_le (g : list bool) (w n : nat) : hits_w g w n <= w.
Proof.
  unfold hits_w.
  apply Nat.le_trans with (length (List.seq 0 w));
    [apply filter_length_le | now rewrite length_seq].
Qed.

Lemma smoothed_weights (g : list bool) (n : nat) :
  Float.ltb (Float.of_Q (99 # 100))
            (Numpy.conv_at (Numpy.weights 5) (map Numpy.of_bool g) n)
  = (5 <=? hits_w g 5 n).
Proof.
  rewrite (conv_at_weights g 5 n _ _ eq_refl eq_refl)
    by (intros h Hh; apply (window_of_five h Hh)).
  apply (window_of_five _ (hits_w_le g 5 n)).
Qed.

(** [gm] at [k] holds exactly when the five positions around [k] all lie
    in the comparison and all match. *)
Lemma gm_spec (compare : list bool) (running_average : list float) :
  Numpy.convolve_same (map Numpy.of_bool compare) (Numpy.weights 5)
  = Ok running_average ->
  forall k,
    nth k (map (fun x => Float.ltb (Float.of_Q (99 # 100)) x)
               running_average)
        false = true
    <-> 2 <= k /\ forall j, k - 2 <= j <= k + 2 ->
                            nth j compare false = true.
Proof.
  intros H k.
  destruct (Nat.eq_dec (length compare) 0) as [E0|Hne].
  { rewrite convolve_same_empty in H by exact E0. discriminate. }
  destruct (Nat.lt_ge_cases (length compare) 5) as [Hlt|Hge].
  - rewrite convolve_same_weights in H by lia.
    apply Ok_inj in H. subst running_average.
    rewrite map_map, nth_map_seq.
    split.
    + destruct (k <? 5); [|discriminate].
      rewrite smoothed_weights.
      intros Hh. apply Nat.leb_le in Hh.
      pose proof (hits_w_lt compare 5
                    ((length compare - 1) / 2 + k) Hlt). lia.
    + intros [Hk Hall]. exfalso.
      assert (H2 : nth (k + 2) compare false = true) by (apply Hall; lia).
      apply nth_true_lt in H2. lia.
  - rewrite convolve_same_data in H by lia.
    apply Ok_inj in H. subst running_average.
    rewrite map_map, nth_map_seq.
    change ((5 - 1) / 2) with 2.
    split.
    + destruct (k <? length compare); [|discriminate].
      rewrite smoothed_data.
      intros Hh. apply Nat.leb_le in Hh.
      assert (Hfull : hits compare 5 (2 + k) = 5)
        by (pose proof (hits_le compare 5 (2 + k)); lia).
      apply hits_full in Hfull; [|lia].
      destruct Hfull as [Hk Hall]. split; [lia|].
      intros j Hj. apply Hall. lia.
    + intros [Hk Hall].
      assert (Hkk : nth k compare false = true) by (apply Hall; lia).
      apply nth_true_lt in Hkk.
      destruct (Nat.ltb_spec k (length compare)) as [_|]; [|lia].
      rewrite smoothed_data.
      apply Nat.leb_le.
      assert (Hfull : hits compare 5 (2 + k) = 5).
      { apply hits_full; [lia|]. split; [lia|].
        intros m Hm. apply Hall. lia. }
      lia.
Qed.

(** [compare] is the letter-by-letter equality of the row and the
    consensus, upper and lower case apart. *)
Lemma row_compare_spec (consensus_array : list ascii)
      (sequence : SeqRecord) (compare : list bool) :
  row_compare consensus_array sequence = Ok compare ->
  let start := fst (_get_ends sequence) in
  let stop := snd (_get_ends sequence) in
  length compare = Nat.min stop (length (Bio.seq sequence)) - start
  /\ forall i, i < length compare ->
       nth i compare false
       = Ascii.eqb (nth (start + i) (Bio.seq sequence) gap)
                   (nth (start + i) consensus_array gap).
Proof.
  unfold row_compare. destruct (_get_ends sequence) as [start stop].
  cbn [fst snd]. unfold Numpy.array_eq.
  destruct (Nat.eqb_spec
              (length (Py.slice (Bio.seq sequence) start stop))
              (length (Py.slice consensus_array start stop)))
    as [Hlen|]; [|discriminate].
  intros [= <-].
  assert (Hl : length (map (fun p => Ascii.eqb (fst p) (snd p))
                           (combine (Py.slice (Bio.seq sequence) start stop)
                                    (Py.slice consensus_array start stop)))
               = Nat.min stop (length (Bio.seq sequence)) - start).
  { rewrite length_map, length_combine, <- Hlen, Nat.min_id.
    apply length_slice. }
  split; [exact Hl|].
  intros i Hi. rewrite Hl in Hi.
  rewrite (nth_map_lt _ _ _ _ (gap, gap))
    by (rewrite length_combine, <- Hlen, Nat.min_id, length_slice;
        exact Hi).
  rewrite combine_nth by exact Hlen.
  cbn [fst snd].
  rewrite !nth_slice by lia. reflexivity.
Qed.

End SmoothedComparison.

(* ------------------------------------------------------------------ *)
(** ** The scan for five consecutive positions *)

Section Scan.

Lemma all_true_slice (gm : list bool) (t : nat) :
  Numpy.all_true (firstn 5 (skipn t gm)) = true
  <-> forall j, j < 5 -> t + j < length gm -> nth (t + j) gm false = true.
Proof.
  unfold Numpy.all_true. rewrite forallb_forall.
  assert (Hnth : forall j, j < 5 ->
             nth j (firstn 5 (skipn t gm)) false = nth (t + j) gm false).
  { intros j Hj. rewrite nth_firstn.
    destruct (Nat.ltb_spec j 5); [apply nth_skipn | lia]. }
  assert (Hlen : length (firstn 5 (skipn t gm))
                 = Nat.min 5 (length gm - t))
    by now rewrite length_firstn, length_skipn.
  split.
  - intros H j Hj Hlt. rewrite <- Hnth by exact Hj.
    symmetry. apply Bool.eqb_prop, H, nth_In. lia.
  - intros H x Hx. apply (In_nth _ _ false) in Hx.
    destruct Hx as (j & Hj & <-). rewrite Hlen in Hj.
    rewrite Hnth by lia. rewrite H by lia. reflexivity.
Qed.

Lemma first_run_Some (gm : list bool) :
  forall s r,
    first_run gm s = Some r ->
    s <= r /\ r - s < length gm
    /\ Numpy.all_true (firstn 5 (skipn (r - s) gm)) = true
    /\ forall t, t < r - s ->
                 Numpy.all_true (firstn 5 (skipn t gm)) = false.
Proof.
  induction gm as [|x tl IH]; intros s r H; [discriminate|].
  cbn [first_run] in H.
  destruct (Numpy.all_true (firstn 5 (x :: tl))) eqn:E.
  - injection H as <-. rewrite Nat.sub_diag. cbn [length skipn].
    repeat split; try lia. exact E.
  - apply IH in H. destruct H as (Hs & Hr & Hrun & Hmin).
    replace (r - s) with (S (r - S s)) by lia. cbn [length skipn].
    repeat split; try lia; [exact Hrun|].
    intros [|t] Ht; [exact E|]. cbn [skipn]. apply Hmin. lia.
Qed.

Lemma first_run_None (gm : list bool) :
  forall s,
    first_run gm s = None ->
    forall t, t < length gm ->
              Numpy.all_true (firstn 5 (skipn t gm)) = false.
Proof.
  induction gm as [|x tl IH]; intros s H t Ht; [cbn in Ht; lia|].
  cbn [first_run] in H.
  destruct (Numpy.all_true (firstn 5 (x :: tl))) eqn:E; [discriminate|].
  destruct t as [|t]; [exact E|].
  cbn [skipn]. apply (IH _ H). cbn in Ht. lia.
Qed.

(** When the last position of [gm] does not hold, a slice [gm[t:t+5]] of
    [True] only is a full run of five. *)
Lemma slice_is_run (gm : list bool) (t : nat) :
  nth (length gm - 1) gm false = false ->
  (t < length gm /\ Numpy.all_true (firstn 5 (skipn t gm)) = true)
  <-> run_at gm t.
Proof.
  intros Hlast. rewrite all_true_slice. unfold run_at. split.
  - intros [Ht H].
    assert (Hfit : t + 5 <= length gm).
    { destruct (Nat.le_gt_cases (t + 5) (length gm)) as [|Hgt];
        [assumption|].
      exfalso.
      specialize (H (length gm - 1 - t)).
      replace (t + (length gm - 1 - t)) with (length gm - 1) in H by lia.
      rewrite H in Hlast by lia. discriminate. }
    intros j Hj. apply H; lia.
  - intros H. split.
    + specialize (H 0). rewrite Nat.add_0_r in H.
      apply nth_true_lt, H. lia.
    + intros j Hj _. now apply H.
Qed.

Lemma first_run_spec (gm : list bool) (i : nat) :
  nth (length gm - 1) gm false = false ->
  first_run gm 0 = Some i <-> first_run_at gm i.
Proof.
  intros Hlast. unfold first_run_at. split.
  - intros H. apply first_run_Some in H.
    rewrite Nat.sub_0_r in H. destruct H as (_ & Hi & Hrun & Hmin).
    split.
    + apply slice_is_run; auto.
    + intros t Ht Hrun'. apply slice_is_run in Hrun'; [|exact Hlast].
      destruct Hrun' as [_ Hrun']. rewrite Hmin in Hrun' by exact Ht.
      discriminate.
  - intros [Hrun Hmin]. apply slice_is_run in Hrun; [|exact Hlast].
    destruct Hrun as [Hi Hrun].
    destruct (first_run gm 0) as [r|] eqn:E.
    + apply first_run_Some in E. rewrite Nat.sub_0_r in E.
      destruct E as (_ & Hr & Hrrun & Hrmin).
      destruct (Nat.lt_trichotomy r i) as [Hlt|[->|Hgt]].
      * exfalso. apply (Hmin r Hlt). apply slice_is_run; auto.
      * reflexivity.
      * rewrite Hrmin in Hrun by exact Hgt. discriminate.
    + rewrite (first_run_None _ _ E i Hi) in Hrun. discriminate.
Qed.

Lemma convolve_same_length (g : list bool) (w : nat) (ra : list float) :
  Numpy.convolve_same (map Numpy.of_bool g) (Numpy.weights w) = Ok ra ->
  length ra = Nat.max (length g) w.
Proof.
  intros H.
  destruct (Nat.eq_dec (length g) 0) as [E0|Hne].
  { rewrite convolve_same_empty in H by exact E0. discriminate. }
  destruct (Nat.lt_ge_cases (length g) w) as [Hlt|Hge].
  - rewrite convolve_same_weights in H by lia. apply Ok_inj in H. subst ra.
    rewrite length_map, length_seq. lia.
  - destruct (Nat.eq_dec w 0) as [->|Hw].
    + unfold Numpy.convolve_same in H. cbn in H.
      rewrite length_map in H.
      destruct (length g) as [|n] eqn:E; cbn in H; discriminate.
    + rewrite convolve_same_data in H by lia. apply Ok_inj in H. subst ra.
      rewrite length_map, length_seq. lia.
Qed.

End Scan.

(** C4, amended.  For a row that stage two compares with the consensus:
    the comparison runs over the row without its own leading and trailing
    gaps and holds at a position exactly when the row's letter and the
    consensus letter are the same character (upper and lower case are
    different characters); the smoothed sequence [gm] holds at [k] exactly
    when the five compared positions [k-2 .. k+2] all exist and all match;
    the forward scan finds [i] exactly when [i] is the first position from
    which five consecutive positions of [gm] hold, the backward scan finds
    [j] by the same rule on the reversed [gm], and the row body then leaves
    [bad_start = i] and [bad_end = len(gm) - j]. *)
Theorem stage_two_bounds_spec
        (consensus_array : list ascii) (sequence : SeqRecord)
        (compare gm : list bool) :
  row_compare consensus_array sequence = Ok compare ->
  row_gm consensus_array sequence 5 = Ok gm ->
  let start := fst (_get_ends sequence) in
  let stop := snd (_get_ends sequence) in
  (length compare = Nat.min stop (length (Bio.seq sequence)) - start
   /\ forall i, i < length compare ->
        nth i compare false
        = Ascii.eqb (nth (start + i) (Bio.seq sequence) gap)
                    (nth (start + i) consensus_array gap))
  /\ (forall k, nth k gm false = true
                <-> 2 <= k /\ forall j, k - 2 <= j <= k + 2 ->
                                        nth j compare false = true)
  /\ (forall i, first_run gm 0 = Some i <-> first_run_at gm i)
  /\ (forall j, first_run (rev gm) 0 = Some j <-> first_run_at (rev gm) j)
  /\ (forall i j old_start old_end,
        first_run gm 0 = Some i ->
        first_run (rev gm) 0 = Some j ->
        exists trim,
          trim_row consensus_array sequence 5 old_start old_end
          = Ok (trim, Some i, Some (length gm - j))).
Proof.
  intros Hcmp Hgm start stop.
  split; [now apply row_compare_spec|].
  assert (Hra : exists ra,
             Numpy.convolve_same (map Numpy.of_bool compare) (Numpy.weights 5)
             = Ok ra
             /\ gm = map (fun x => Float.ltb (Float.of_Q (99 # 100)) x) ra).
  { unfold row_gm in Hgm. rewrite Hcmp in Hgm. cbn [Py.bind] in Hgm.
    destruct (Numpy.convolve_same _ _) as [ra|] eqn:E; [|discriminate].
    cbn [Py.bind] in Hgm. apply Ok_inj in Hgm. now exists ra. }
  destruct Hra as (ra & Hra & Egm).
  assert (Hspec : forall k, nth k gm false = true
                            <-> 2 <= k /\ forall j, k - 2 <= j <= k + 2 ->
                                                    nth j compare false = true).
  { rewrite Egm. now apply gm_spec. }
  assert (Hlen : length gm = Nat.max (length compare) 5).
  { rewrite Egm, length_map. now apply convolve_same_length. }
  assert (Hlast : nth (length gm - 1) gm false = false).
  { destruct (nth (length gm - 1) gm false) eqn:E; [|reflexivity].
    exfalso. apply Hspec in E. destruct E as [_ E].
    specialize (E (length gm - 1 + 2)).
    assert (Ht : nth (length gm - 1 + 2) compare false = true)
      by (apply E; lia).
    apply nth_true_lt in Ht. lia. }
  assert (Hfirst : nth (length (rev gm) - 1) (rev gm) false = false).
  { rewrite length_rev.
    destruct gm as [|x tl] eqn:Eg; [reflexivity|].
    rewrite <- Eg in *.
    rewrite rev_nth by (rewrite Eg; cbn; lia).
    replace (length gm - S (length gm - 1)) with 0 by (rewrite Eg; cbn; lia).
    destruct (nth 0 gm false) eqn:E; [|reflexivity].
    apply Hspec in E. lia. }
  split; [exact Hspec|].
  split; [intros i; now apply first_run_spec|].
  split; [intros j; now apply first_run_spec|].
  intros i j old_start old_end Hi Hj.
  eexists. now apply trim_row_found.
Qed.

(** The same at a conserved row of twelve letters. *)
Lemma stage_two_bounds_spec_witness :
  let consensus_array := list_ascii_of_string "ACGTACGTACGT" in
  let sequence := row "t1" "ACGTACGTACGT" in
  let compare := repeat true 12 in
  let gm := [false; false; true; true; true; true; true; true; true; true;
             false; false] in
  let start := fst (_get_ends sequence) in
  let stop := snd (_get_ends sequence) in
  (length compare = Nat.min stop (length (Bio.seq sequence)) - start
   /\ forall i, i < length compare ->
        nth i compare false
        = Ascii.eqb (nth (start + i) (Bio.seq sequence) gap)
                    (nth (start + i) consensus_array gap))
  /\ (forall k, nth k gm false = true
                <-> 2 <= k /\ forall j, k - 2 <= j <= k + 2 ->
                                        nth j compare false = true)
  /\ (forall i, first_run gm 0 = Some i <-> first_run_at gm i)
  /\ (forall j, first_run (rev gm) 0 = Some j <-> first_run_at (rev gm) j)
  /\ (forall i j old_start old_end,
        first_run gm 0 = Some i ->
        first_run (rev gm) 0 = Some j ->
        exists trim,
          trim_row consensus_array sequence 5 old_start old_end
          = Ok (trim, Some i, Some (length gm - j))).
Proof.
  intros consensus_array sequence compare gm.
  apply (stage_two_bounds_spec consensus_array sequence compare gm);
    vm_compute; reflexivity.
Defined.

(* ------------------------------------------------------------------ *)
(** ** The row check *)

Section RowCheck.

Lemma set_eqb_gap (trim : list ascii) :
  Py.set_eqb trim [gap] = true
  <-> trim <> [] /\ forall c, In c trim -> c = gap.
Proof.
  unfold Py.set_eqb. rewrite andb_true_iff, !forallb_forall. split.
  - intros [Hall Hmem]. split.
    + intros ->. specialize (Hmem gap (or_introl eq_refl)). discriminate.
    + intros c Hc. specialize (Hall c Hc). cbn in Hall.
      rewrite orb_false_r in Hall. now apply Ascii.eqb_eq in Hall.
  - intros [Hne Hall]. split.
    + intros c Hc. rewrite (Hall c Hc). reflexivity.
    + intros c [<-|[]]. destruct trim as [|x tl]; [congruence|].
      cbn. rewrite (Hall x) by now left. reflexivity.
Qed.

(** The check rejects the rows made of gap markers only, and no other:
    the comparison with the list [['?']] never fails. *)
Lemma keep_row_false (trim : list ascii) :
  keep_row trim = false <-> trim <> [] /\ forall c, In c trim -> c = gap.
Proof.
  unfold keep_row. cbn [Py.ne]. rewrite andb_true_r, negb_false_iff.
  apply set_eqb_gap.
Qed.

Lemma keep_row_missing (n : nat) : keep_row (repeat missing (S n)) = true.
Proof.
  destruct (keep_row _) eqn:E; [reflexivity|].
  apply keep_row_false in E. destruct E as [_ E].
  specialize (E missing (or_introl eq_refl)). discriminate.
Qed.

End RowCheck.

(** No row of a surviving pass of stage one is made of gap markers only. *)
Lemma stage_one_survivors_checked (start stop : option nat)
      (rows : list SeqRecord) :
  forall acc out,
    stage_one_loop start stop rows acc = Ok (Some out) ->
    forall r, In r rows ->
      exists s e, start = Some s /\ stop = Some e
                  /\ keep_row (Bio.seq (record_slice r s e)) = true.
Proof.
  induction rows as [|r0 rest IH]; intros acc out H r Hr; [destruct Hr|].
  cbn [stage_one_loop] in H.
  destruct start as [s|]; [|discriminate H].
  destruct stop as [[|e]|]; try discriminate H.
  destruct (keep_row _) eqn:Hk; [|discriminate H].
  bind_inv H.
  destruct Hr as [<-|Hr].
  - now exists s, (S e).
  - now apply (IH _ _ H).
Qed.

(** With a row whose clipped letters are gap markers only, stage one
    returns no alignment. *)
Lemma stage_one_drops_gap_row (s e : nat) (rows : list SeqRecord)
      (acc : MultipleSeqAlignment) (r : SeqRecord) :
  In r rows ->
  keep_row (Bio.seq (record_slice r s e)) = false ->
  forall out, stage_one_loop (Some s) (Some e) rows acc <> Ok (Some out).
Proof.
  intros Hr Hk out H.
  destruct (stage_one_survivors_checked _ _ _ _ _ H r Hr)
    as (s' & e' & [= <-] & [= <-] & Hk').
  congruence.
Qed.

(** The comparison of stage two is defined for a row as long as the
    consensus. *)
Lemma row_compare_total (consensus_array : list ascii) (sequence : SeqRecord) :
  length consensus_array = length (Bio.seq sequence) ->
  exists compare, row_compare consensus_array sequence = Ok compare.
Proof.
  intros Hlen. unfold row_compare.
  destruct (_get_ends sequence) as [start stop].
  unfold Numpy.array_eq. rewrite !length_slice, Hlen, Nat.eqb_refl.
  eexists. reflexivity.
Qed.

(* ------------------------------------------------------------------ *)
(** ** Failures of a pass *)

(** A [None] from pass A is not tested: pass B raises on it. *)
Lemma failed_pass_A_raises (alignment : MultipleSeqAlignment)
      (method : string) (window_size : nat) (threshold proportion : float) :
  String.eqb method "notrim" = false ->
  stage_one_trimming (Some alignment) window_size threshold proportion
  = Ok None ->
  trim_alignment alignment method window_size threshold proportion
  = Raise AttributeError.
Proof.
  intros Hm H1. unfold trim_alignment. now rewrite Hm, H1.
Qed.

(** A [None] from pass B is not tested either: pass C raises on it. *)
Lemma failed_pass_B_raises (alignment : MultipleSeqAlignment)
      (method : string) (window_size : nat) (threshold proportion : float)
      (s1_trimmed : MultipleSeqAlignment) :
  String.eqb method "notrim" = false ->
  stage_one_trimming (Some alignment) window_size threshold proportion
  = Ok (Some s1_trimmed) ->
  stage_two_trimming (Some s1_trimmed) 5 = Ok None ->
  trim_alignment alignment method window_size threshold proportion
  = Raise TypeError.
Proof.
  intros Hm H1 H2. unfold trim_alignment.
  rewrite Hm, H1. cbn [Py.bind]. now rewrite H2.
Qed.

(** A row whose [gm] has no run is masked with the bounds of the rows
    before it, and raises when there are none. *)
Lemma trim_row_not_found
      (consensus_array : list ascii) (sequence : SeqRecord)
      (window_size : nat) (gm : list bool) :
  row_gm consensus_array sequence window_size = Ok gm ->
  first_run gm 0 = None ->
  first_run (rev gm) 0 = None ->
  (forall old_end,
      trim_row consensus_array sequence window_size None old_end
      = Raise UnboundLocalError)
  /\ (forall old_start old_end,
        trim_row consensus_array sequence window_size
                 (Some old_start) (Some old_end)
        = Ok (Py.assign_suffix (fst (_get_ends sequence) + old_end) gap
                (Py.assign_prefix (fst (_get_ends sequence) + old_start) gap
                   (Bio.seq sequence)),
              Some old_start, Some old_end)).
Proof.
  intros Hgm Hfwd Hbwd. split; intros; unfold trim_row;
    rewrite Hgm; cbn [Py.bind]; rewrite Hfwd, Hbwd; reflexivity.
Qed.

(* ------------------------------------------------------------------ *)
(** ** The column test of stage one *)

Section ColumnTest.

Lemma fold_best (tl : list (ascii * nat)) :
  forall kv,
    let best :=
      fold_left (fun best kv' => if snd best <? snd kv' then kv' else best)
                tl kv in
    (best = kv \/ In best tl)
    /\ snd kv <= snd best
    /\ forall x, In x tl -> snd x <= snd best.
Proof.
  induction tl as [|y tl IH]; intros kv; cbn [fold_left].
  - cbn. intuition.
  - destruct (Nat.ltb_spec (snd kv) (snd y)) as [Hlt|Hge].
    + destruct (IH y) as (Hin & Hle & Hall). cbn zeta in *.
      repeat split.
      * right. destruct Hin as [->|Hin]; [now left | now right].
      * lia.
      * intros x [<-|Hx]; [exact Hle | now apply Hall].
    + destruct (IH kv) as (Hin & Hle & Hall). cbn zeta in *.
      repeat split.
      * destruct Hin as [->|Hin]; [now left | right; now right].
      * exact Hle.
      * intros x [<-|Hx]; [lia | now apply Hall].
Qed.

(** [most_common(1)] holds an entry of greatest count. *)
Lemma most_common_1_spec (cnt : Py.Counter) :
  match Py.most_common_1 cnt with
  | [] => cnt = []
  | kv :: _ => In kv cnt /\ forall x, In x cnt -> snd x <= snd kv
  end.
Proof.
  destruct cnt as [|kv tl]; cbn [Py.most_common_1]; [reflexivity|].
  destruct (fold_best tl kv) as (Hin & Hle & Hall). cbn zeta in *.
  split.
  - destruct Hin as [->|Hin]; [now left | now right].
  - intros x [<-|Hx]; [exact Hle | now apply Hall].
Qed.

Lemma del_entries (col : list ascii) (a : ascii) (v : nat) :
  In (a, v) (Py.del gap (Py.count col))
  <-> In a col /\ a <> gap /\ v = count_occ ascii_dec col a.
Proof.
  unfold Py.del. rewrite filter_In, count_entries. cbn [fst].
  rewrite negb_true_iff.
  destruct (Ascii.eqb_spec a gap); intuition congruence.
Qed.

Lemma get_count (col : list ascii) (a : ascii) :
  Py.get a (Py.count col) = count_occ ascii_dec col a.
Proof.
  unfold Py.count. change (Py.get a (tally_of col []) = count_occ ascii_dec col a).
  rewrite tally_of_get. cbn. lia.
Qed.

(** The three outcomes of the test of a column.  With [gaps] the number
    of gap markers: the column is BAD when [gaps] exceeds the majority
    count; otherwise it is GOOD when some other letter occurs at least
    the majority count of times and BAD when the column has other
    letters and none does; a column of gap markers only, when [gaps] does
    not exceed the majority count, raises [IndexError]. *)
Lemma column_is_good_spec (majority_of_characters : Z) (col : list ascii) :
  let gaps := Z.of_nat (count_occ ascii_dec col gap) in
  let occ c := Z.of_nat (count_occ ascii_dec col c) in
  match column_is_good majority_of_characters col with
  | Ok true =>
      (gaps <= majority_of_characters)%Z
      /\ exists c, In c col /\ c <> gap
                   /\ (majority_of_characters <= occ c)%Z
  | Ok false =>
      (majority_of_characters < gaps)%Z
      \/ ((exists c, In c col /\ c <> gap)
          /\ forall c, In c col -> c <> gap ->
                       (occ c < majority_of_characters)%Z)
  | Raise e =>
      e = IndexError
      /\ (gaps <= majority_of_characters)%Z
      /\ forall c, In c col -> c = gap
  end.
Proof.
  intros gaps occ. unfold column_is_good. rewrite get_count. fold gaps.
  destruct (Z.leb_spec gaps majority_of_characters) as [Hle|Hgt];
    [|now left].
  pose proof (most_common_1_spec (Py.del gap (Py.count col))) as Hmc.
  destruct (Py.most_common_1 (Py.del gap (Py.count col)))
    as [|[c n] rest].
  - split; [reflexivity|]. split; [exact Hle|].
    intros c Hc. destruct (ascii_dec c gap) as [|Hne]; [assumption|].
    exfalso.
    assert (Hin : In (c, count_occ ascii_dec col c)
                     (Py.del gap (Py.count col)))
      by (apply del_entries; auto).
    rewrite Hmc in Hin. destruct Hin.
  - destruct Hmc as [Hin Hmax]. apply del_entries in Hin.
    destruct Hin as (Hc & Hne & ->).
    destruct (Z.leb_spec majority_of_characters
                         (Z.of_nat (count_occ ascii_dec col c)))
      as [Hmaj|Hmaj].
    + split; [exact Hle|]. exists c. auto.
    + right. split; [exists c; auto|].
      intros d Hd Hdne.
      assert (Hdin : In (d, count_occ ascii_dec col d)
                        (Py.del gap (Py.count col)))
        by (apply del_entries; auto).
      apply Hmax in Hdin. cbn [snd] in Hdin. unfold occ. lia.
Qed.

End ColumnTest.

(* ------------------------------------------------------------------ *)
(** ** The scan of stage one on an alignment at least as wide as the
    window *)

Section CentredScan.

Lemma where_spec (cond : list bool) :
  Numpy.where_ cond
  = filter (fun k => nth k cond false) (List.seq 0 (length cond)).
Proof.
  unfold Numpy.where_.
  assert (H : forall s,
             map fst (filter snd (combine (List.seq s (length cond)) cond))
             = filter (fun k => nth (k - s) cond false)
                      (List.seq s (length cond))).
  { induction cond as [|b tl IH]; intros s; [reflexivity|].
    cbn [length List.seq combine filter snd].
    rewrite Nat.sub_diag. change (nth 0 (b :: tl) false) with b.
    assert (Htl : filter (fun k => nth (k - s) (b :: tl) false)
                         (List.seq (S s) (length tl))
                  = filter (fun k => nth (k - S s) tl false)
                           (List.seq (S s) (length tl))).
    { apply filter_ext_in. intros k Hk. apply in_seq in Hk.
      replace (k - s) with (S (k - S s)) by lia. reflexivity. }
    rewrite Htl, <- IH. destruct b; reflexivity. }
  rewrite H. apply filter_ext. intros k. now rewrite Nat.sub_0_r.
Qed.



End CentredScan.

(* ------------------------------------------------------------------ *)
(** ** The weights of a moving average are finite numbers *)

Section FiniteWeights.

Local Open Scope Z_scope.





















End FiniteWeights.

(* ------------------------------------------------------------------ *)
(** ** Sums of weights and sums of zeros *)

Section Signs.












(** Products with a zero, and their sums, are zeros or NaNs; none reaches a
    positive threshold. *)
Lemma mul_zero_l_nullish (y : float) : nullish (Float.mul Float.zero y).
Proof. destruct y; exact I. Qed.

Lemma mul_zero_r_nullish (y : float) : nullish (Float.mul y Float.zero).
Proof. destruct y; exact I. Qed.

Lemma add_nullish (x y : float) :
  nullish x -> nullish y -> nullish (Float.add x y).
Proof.
  destruct x as [sx|sx| |sx mx ex], y as [sy|sy| |sy my ey];
    cbn [nullish]; intros Hx Hy; try contradiction; try exact I.
  destruct sx, sy; exact I.
Qed.

Lemma fold_nullish (f : nat -> float) (l : list nat) :
  (forall m, In m l -> nullish (f m)) ->
  forall tmp, nullish tmp ->
    nullish (fold_left (fun tmp m => Float.add tmp (f m)) l tmp).
Proof.
  induction l as [|m tl IH]; intros Hf tmp Htmp; [exact Htmp|].
  cbn [fold_left]. apply IH.
  - intros m' Hm'. apply Hf. now right.
  - apply add_nullish; [exact Htmp|]. apply Hf. now left.
Qed.

Lemma nullish_below (t x : float) :
  Float.ltb Float.zero t = true -> nullish x -> Float.leb t x = false.
Proof.
  destruct t as [st|st| |st mt et], x as [sx|sx| |sx mx ex];
    cbn [nullish]; intros Ht Hx; try contradiction; try discriminate;
    try reflexivity; destruct st; try discriminate; reflexivity.
Qed.

Lemma nth_all_zero (g : list bool) (m : nat) :
  (forall b, In b g -> b = false) ->
  nth m (map Numpy.of_bool g) Float.zero = Float.zero.
Proof.
  intros H. rewrite nth_of_bool.
  destruct (Nat.lt_ge_cases m (length g)) as [Hm|Hm].
  - now rewrite (H _ (nth_In g false Hm)).
  - now rewrite nth_overflow.
Qed.

Lemma conv_at_all_bad (g : list bool) (v : list float) (n : nat) :
  (forall b, In b g -> b = false) ->
  nullish (Numpy.conv_at (map Numpy.of_bool g) v n)
  /\ nullish (Numpy.conv_at v (map Numpy.of_bool g) n).
Proof.
  intros H. unfold Numpy.conv_at. split.
  - apply fold_nullish; [|exact I]. intros m _.
    rewrite (nth_all_zero g m H). apply mul_zero_l_nullish.
  - apply fold_nullish; [|exact I]. intros m _.
    rewrite (nth_all_zero g (n - m) H). apply mul_zero_r_nullish.
Qed.

End Signs.

(* ------------------------------------------------------------------ *)
(** ** Edge gaps: [_get_ends] and [_replace_ends] *)

Section EdgeGaps.

Implicit Types (s : list ascii).

Lemma gap_run_le s : gap_run s <= length s.
Proof.
  induction s as [|c tl IH]; cbn; [lia|].
  destruct (Ascii.eqb c gap); lia.
Qed.

Lemma gap_run_gaps s i : i < gap_run s -> nth i s gap = gap.
Proof.
  revert i. induction s as [|c tl IH]; intros i Hi; cbn in *; [lia|].
  destruct (Ascii.eqb_spec c gap) as [->|]; [|lia].
  destruct i as [|i]; [reflexivity|]. apply IH. lia.
Qed.

Lemma gap_run_stop s : gap_run s < length s -> nth (gap_run s) s gap <> gap.
Proof.
  induction s as [|c tl IH]; cbn; [lia|].
  destruct (Ascii.eqb_spec c gap) as [->|Hne]; intros H.
  - apply IH. lia.
  - exact Hne.
Qed.

Lemma gap_run_all s :
  gap_run s = length s <-> forall c, In c s -> c = gap.
Proof.
  induction s as [|c tl IH]; cbn.
  - split; [intros _ c [] | reflexivity].
  - destruct (Ascii.eqb_spec c gap) as [->|Hne].
    + split.
      * intros H d [<-|Hd]; [reflexivity|]. apply IH; [lia | exact Hd].
      * intros H. f_equal. apply IH. intros d Hd. apply H. now right.
    + split; [lia|]. intros H. exfalso. apply Hne, H. now left.
Qed.

Lemma gap_run_app s t :
  gap_run s < length s -> gap_run (s ++ t) = gap_run s.
Proof.
  induction s as [|c tl IH]; cbn; [lia|].
  destruct (Ascii.eqb c gap); intros H; [|reflexivity].
  f_equal. apply IH. lia.
Qed.

Lemma gap_run_head s :
  gap_run s = 0 <-> nth 0 s missing <> gap.
Proof.
  destruct s as [|c tl]; cbn.
  - split; [discriminate | reflexivity].
  - destruct (Ascii.eqb_spec c gap); split; congruence.
Qed.

Lemma length_sub_leading s : length (sub_leading s) = length s.
Proof.
  unfold sub_leading, _gap_replacement.
  rewrite length_app, repeat_length, length_firstn, length_skipn.
  pose proof (gap_run_le s). lia.
Qed.

Lemma nth_sub_leading s i d :
  i < length s ->
  nth i (sub_leading s) d = if i <? gap_run s then missing else nth i s d.
Proof.
  intros Hi. unfold sub_leading, _gap_replacement.
  pose proof (gap_run_le s) as Hle.
  rewrite length_firstn, Nat.min_l by exact Hle.
  destruct (Nat.ltb_spec i (gap_run s)) as [Hlt|Hge].
  - rewrite app_nth1 by (rewrite repeat_length; exact Hlt).
    now apply nth_repeat_lt.
  - rewrite app_nth2 by (rewrite repeat_length; exact Hge).
    rewrite repeat_length, nth_skipn. f_equal. lia.
Qed.

Lemma sub_leading_fixed s : gap_run s = 0 -> sub_leading s = s.
Proof. intros H. unfold sub_leading. now rewrite H. Qed.

Lemma gap_run_sub_leading s : gap_run (sub_leading s) = 0.
Proof.
  apply gap_run_head.
  destruct s as [|c tl]; [discriminate|].
  rewrite nth_sub_leading by (cbn; lia).
  destruct (Nat.ltb_spec 0 (gap_run (c :: tl))) as [|Hz]; [discriminate|].
  apply gap_run_head. lia.
Qed.

(** For a string that no newline ends, the run matched by [([-]+)$] is the
    opening run of the reversed string. *)
Lemma trailing_run_plain s :
  last s gap <> "010"%char -> trailing_run s = gap_run (rev s).
Proof.
  intros Hlast. unfold trailing_run.
  destruct (rev s) as [|c before] eqn:Hrev; [reflexivity|].
  assert (Hc : c = last s gap).
  { rewrite <- (rev_involutive s), Hrev. cbn [rev]. now rewrite last_last. }
  destruct (Ascii.eqb_spec c "010") as [E|_]; [congruence | reflexivity].
Qed.

(** [sub_trailing] read from the left, for a string that no newline ends. *)
Lemma nth_sub_trailing s i d :
  last s gap <> "010"%char ->
  i < length s ->
  nth i (sub_trailing s) d
  = if length s - gap_run (rev s) <=? i then missing else nth i s d.
Proof.
  intros Hlast Hi. unfold sub_trailing.
  destruct (rev s) as [|c before] eqn:Hrev.
  { apply (f_equal (@length ascii)) in Hrev. rewrite length_rev in Hrev.
    cbn in Hrev. lia. }
  assert (Hc : c = last s gap).
  { rewrite <- (rev_involutive s), Hrev. cbn [rev]. now rewrite last_last. }
  destruct (Ascii.eqb_spec c "010") as [E|_]; [congruence|].
  rewrite <- Hrev.
  pose proof (gap_run_le (rev s)) as Hle. rewrite length_rev in Hle.
  rewrite rev_nth by (rewrite length_sub_leading, length_rev; exact Hi).
  rewrite length_sub_leading, length_rev.
  rewrite nth_sub_leading by (rewrite length_rev; lia).
  destruct (Nat.ltb_spec (length s - S i) (gap_run (rev s))),
           (Nat.leb_spec (length s - gap_run (rev s)) i);
    try reflexivity; try lia.
  rewrite rev_nth by lia. f_equal. lia.
Qed.

Lemma length_sub_trailing s : length (sub_trailing s) = length s.
Proof.
  unfold sub_trailing. destruct (rev s) as [|c before] eqn:Hrev.
  - apply (f_equal (@length ascii)) in Hrev. now rewrite length_rev in Hrev.
  - apply (f_equal (@length ascii)) in Hrev. rewrite length_rev in Hrev.
    destruct (Ascii.eqb c "010"); rewrite length_rev; cbn [length];
      rewrite ?length_sub_leading; cbn [length] in *; lia.
Qed.

(** Whatever the string, [sub_trailing] only turns gap markers into
    missing-data markers. *)
Lemma sub_leading_letters s i :
  nth i (sub_leading s) gap = nth i s gap
  \/ (nth i s gap = gap /\ nth i (sub_leading s) gap = missing).
Proof.
  destruct (Nat.lt_ge_cases i (length s)) as [Hi|Hi].
  - rewrite nth_sub_leading by exact Hi.
    destruct (Nat.ltb_spec i (gap_run s)) as [Hlt|]; [|now left].
    right. split; [now apply gap_run_gaps | reflexivity].
  - left. rewrite !nth_overflow; rewrite ?length_sub_leading; auto.
Qed.

Lemma sub_trailing_letters s i :
  nth i (sub_trailing s) gap = nth i s gap
  \/ (nth i s gap = gap /\ nth i (sub_trailing s) gap = missing).
Proof.
  destruct (Nat.lt_ge_cases i (length s)) as [Hi|Hi].
  2:{ left. rewrite !nth_overflow; rewrite ?length_sub_trailing; auto. }
  unfold sub_trailing. destruct (rev s) as [|c before] eqn:Hrev.
  { apply (f_equal (@length ascii)) in Hrev. rewrite length_rev in Hrev.
    cbn in Hrev. lia. }
  assert (Hs : s = rev (c :: before))
    by (rewrite <- Hrev; now rewrite rev_involutive).
  assert (Hlen : length s = S (length before)).
  { rewrite Hs, length_rev. reflexivity. }
  destruct (Ascii.eqb c "010").
  - rewrite Hs. cbn [rev].
    destruct (Nat.eq_dec i (length before)) as [->|Hne].
    + left. rewrite !app_nth2;
        rewrite ?length_rev, ?length_sub_leading; try lia.
      reflexivity.
    + rewrite !app_nth1 by
        (rewrite ?length_rev, ?length_sub_leading; lia).
      rewrite !rev_nth by (rewrite ?length_sub_leading; lia).
      rewrite length_sub_leading. apply sub_leading_letters.
  - rewrite Hs.
    rewrite !rev_nth by (rewrite ?length_sub_leading; cbn [length]; lia).
    rewrite length_sub_leading. apply sub_leading_letters.
Qed.

Lemma sub_trailing_twice s : sub_trailing (sub_trailing s) = sub_trailing s.
Proof.
  unfold sub_trailing at 2 3. destruct (rev s) as [|c before] eqn:Hrev.
  - reflexivity.
  - destruct (Ascii.eqb_spec c "010") as [E|Hne].
    + unfold sub_trailing. rewrite rev_involutive.
      destruct (Ascii.eqb_spec c "010"); [|congruence].
      now rewrite sub_leading_fixed by apply gap_run_sub_leading.
    + unfold sub_trailing. rewrite rev_involutive.
      destruct (sub_leading (c :: before)) as [|c' before'] eqn:Hsub.
      { apply (f_equal (@length ascii)) in Hsub.
        rewrite length_sub_leading in Hsub. discriminate. }
      assert (Hc' : c' <> "010"%char).
      { assert (H0 : nth 0 (sub_leading (c :: before)) gap = c')
          by now rewrite Hsub.
        rewrite nth_sub_leading in H0 by (cbn; lia).
        destruct (0 <? gap_run (c :: before)); cbn in H0; subst c';
          [discriminate | exact Hne]. }
      destruct (Ascii.eqb_spec c' "010"); [congruence|].
      rewrite <- Hsub.
      now rewrite sub_leading_fixed by apply gap_run_sub_leading.
Qed.

End EdgeGaps.

Lemma last_as_nth (s : list ascii) (d : ascii) :
  last s d = nth (length s - 1) s d.
Proof.
  induction s as [|c tl IH]; [reflexivity|].
  destruct tl as [|c' tl']; [reflexivity|].
  change (last (c :: c' :: tl') d) with (last (c' :: tl') d).
  rewrite IH. cbn [length].
  replace (S (S (length tl')) - 1) with (S (S (length tl') - 1)) by lia.
  reflexivity.
Qed.

(** X1.  [_get_ends] of a row that no newline ends (before a final newline
    the pattern [([-]+)$] matches too; such rows are left out): every letter
    before [start] and every letter from [stop] on is a gap marker; when the row
    holds another letter, [start < stop], and the letters at [start] and at
    [stop - 1] are not gap markers; a row of gap markers only gives
    [start = len(row)] and [stop = 0]. *)
Theorem get_ends_spec (r : SeqRecord) :
  last (Bio.seq r) gap <> "010"%char ->
  let start := fst (_get_ends r) in
  let stop := snd (_get_ends r) in
  (forall i, i < start -> nth i (Bio.seq r) gap = gap)
  /\ (forall i, stop <= i -> nth i (Bio.seq r) gap = gap)
  /\ ((exists c, In c (Bio.seq r) /\ c <> gap) ->
      start < stop <= length (Bio.seq r)
      /\ nth start (Bio.seq r) gap <> gap
      /\ nth (stop - 1) (Bio.seq r) gap <> gap)
  /\ ((forall c, In c (Bio.seq r) -> c = gap) ->
      start = length (Bio.seq r) /\ stop = 0).
Proof.
  intros Hlast. cbn [_get_ends fst snd].
  rewrite (trailing_run_plain _ Hlast). set (s := Bio.seq r).
  pose proof (gap_run_le s) as Hle.
  pose proof (gap_run_le (rev s)) as Hler. rewrite length_rev in Hler.
  assert (Htail : forall i, length s - gap_run (rev s) <= i ->
                            nth i s gap = gap).
  { intros i Hi. destruct (Nat.lt_ge_cases i (length s)) as [Hlt|Hge].
    - rewrite <- (rev_involutive s).
      rewrite rev_nth by (rewrite length_rev; exact Hlt).
      apply gap_run_gaps. rewrite length_rev. lia.
    - now apply nth_overflow. }
  split; [intros i Hi; now apply gap_run_gaps|].
  split; [exact Htail|].
  split.
  - intros (c & Hc & Hne).
    assert (H1 : gap_run s < length s).
    { destruct (Nat.eq_dec (gap_run s) (length s)) as [E|]; [|lia].
      exfalso. apply Hne. now apply (proj1 (gap_run_all s) E). }
    assert (H2 : gap_run (rev s) < length (rev s)).
    { rewrite length_rev.
      destruct (Nat.eq_dec (gap_run (rev s)) (length s)) as [E|]; [|lia].
      exfalso. apply Hne. rewrite <- length_rev in E.
      apply (proj1 (gap_run_all (rev s)) E). now apply in_rev in Hc. }
    pose proof (gap_run_stop s H1) as Hs.
    pose proof (gap_run_stop (rev s) H2) as Hr.
    rewrite length_rev in H2.
    rewrite rev_nth in Hr by exact H2.
    replace (length s - S (gap_run (rev s)))
      with (length s - gap_run (rev s) - 1) in Hr by lia.
    repeat split; try assumption; try lia.
    destruct (Nat.lt_ge_cases (gap_run s) (length s - gap_run (rev s)))
      as [|Hge]; [assumption|].
    exfalso. apply Hs. now apply Htail.
  - intros Hall.
    assert (E1 : gap_run s = length s) by now apply gap_run_all.
    assert (E2 : gap_run (rev s) = length (rev s)).
    { apply gap_run_all. intros c Hc. apply Hall. now apply in_rev. }
    rewrite length_rev in E2. split; [exact E1 | lia].
Qed.

Lemma get_ends_spec_witness :
  let r := row "t1" "--AC-G--" in
  let start := fst (_get_ends r) in
  let stop := snd (_get_ends r) in
  (forall i, i < start -> nth i (Bio.seq r) gap = gap)
  /\ (forall i, stop <= i -> nth i (Bio.seq r) gap = gap)
  /\ ((exists c, In c (Bio.seq r) /\ c <> gap) ->
      start < stop <= length (Bio.seq r)
      /\ nth start (Bio.seq r) gap <> gap
      /\ nth (stop - 1) (Bio.seq r) gap <> gap)
  /\ ((forall c, In c (Bio.seq r) -> c = gap) ->
      start = length (Bio.seq r) /\ stop = 0).
Proof.
  apply (get_ends_spec (row "t1" "--AC-G--")). vm_compute. discriminate.
Defined.

(** X2.  [_replace_ends] keeps the length of the row and changes nothing
    but gap markers, which it turns into missing-data markers. *)
Theorem replace_ends_only_gaps (seq : list ascii) :
  length (_replace_ends seq) = length seq
  /\ forall i,
       nth i (_replace_ends seq) gap = nth i seq gap
       \/ (nth i seq gap = gap /\ nth i (_replace_ends seq) gap = missing).
Proof.
  unfold _replace_ends. split.
  - now rewrite length_sub_trailing, length_sub_leading.
  - intros i.
    destruct (sub_leading_letters seq i) as [E1|[E1 E1']],
             (sub_trailing_letters (sub_leading seq) i) as [E2|[E2 E2']].
    + left. congruence.
    + right. split; congruence.
    + right. split; congruence.
    + exfalso. rewrite E1' in E2. discriminate.
Qed.

(** X3.  [_replace_ends] applied twice is [_replace_ends] applied once. *)
Theorem replace_ends_idempotent (seq : list ascii) :
  _replace_ends (_replace_ends seq) = _replace_ends seq.
Proof.
  unfold _replace_ends.
  set (t := sub_leading seq).
  assert (Ht : gap_run t = 0) by apply gap_run_sub_leading.
  assert (Hst : gap_run (sub_trailing t) = 0).
  { apply gap_run_head.
    destruct t as [|c tl] eqn:Et; [cbn; discriminate|].
    rewrite <- Et in *.
    assert (Hlen : 0 < length (sub_trailing t))
      by (rewrite length_sub_trailing, Et; cbn; lia).
    rewrite (nth_indep _ missing gap) by exact Hlen.
    apply gap_run_head in Ht.
    rewrite (nth_indep _ missing gap) in Ht by (rewrite Et; cbn; lia).
    destruct (sub_trailing_letters t 0) as [E|[_ E]]; rewrite E;
      [exact Ht | discriminate]. }
  rewrite (sub_leading_fixed _ Hst). apply sub_trailing_twice.
Qed.

(** X4.  On a row that no newline ends, [_replace_ends] writes the
    missing-data marker at the columns before [start] and from [stop] on,
    [start] and [stop] being the bounds [_get_ends] gives for the row, and
    leaves the letters in between as they are, inner gaps included. *)
Theorem replace_ends_within_get_ends (r : SeqRecord) :
  last (Bio.seq r) gap <> "010"%char ->
  forall i, i < length (Bio.seq r) ->
    nth i (_replace_ends (Bio.seq r)) gap
    = if (i <? fst (_get_ends r)) || (snd (_get_ends r) <=? i)
      then missing else nth i (Bio.seq r) gap.
Proof.
  intros Hlast i Hi. cbn [_get_ends fst snd].
  rewrite (trailing_run_plain _ Hlast). set (s := Bio.seq r) in *.
  unfold _replace_ends.
  pose proof (gap_run_le s) as Hle.
  assert (Hlast' : last (sub_leading s) gap <> "010"%char).
  { rewrite last_as_nth, length_sub_leading.
    rewrite nth_sub_leading by lia.
    destruct (length s - 1 <? gap_run s); [discriminate|].
    now rewrite <- last_as_nth. }
  rewrite nth_sub_trailing
    by (rewrite ?length_sub_leading; assumption).
  rewrite length_sub_leading, nth_sub_leading by exact Hi.
  destruct (Nat.eq_dec (gap_run s) (length s)) as [Eall|Hsome].
  - destruct (Nat.ltb_spec i (gap_run s)) as [_|]; [|lia].
    cbn [orb]. now destruct (_ <=? i).
  - assert (Hrun : gap_run (rev (sub_leading s)) = gap_run (rev s)).
    { assert (Hcore : gap_run (rev (skipn (gap_run s) s))
                      < length (rev (skipn (gap_run s) s))).
      { pose proof (gap_run_le (rev (skipn (gap_run s) s))) as Hl.
        destruct (Nat.eq_dec (gap_run (rev (skipn (gap_run s) s)))
                             (length (rev (skipn (gap_run s) s))))
          as [E|]; [|lia].
        exfalso. apply (gap_run_stop s); [lia|].
        apply (proj1 (gap_run_all _) E), in_rev.
        rewrite rev_involutive.
        replace (nth (gap_run s) s gap)
          with (nth 0 (skipn (gap_run s) s) gap)
          by (rewrite nth_skipn; f_equal; lia).
        apply nth_In. rewrite length_skipn. lia. }
      assert (Hs : rev s = rev (skipn (gap_run s) s)
                           ++ rev (firstn (gap_run s) s))
        by (now rewrite <- rev_app_distr, firstn_skipn).
      unfold sub_leading. rewrite rev_app_distr, Hs.
      now rewrite !gap_run_app by exact Hcore. }
    rewrite Hrun.
    destruct (Nat.ltb_spec i (gap_run s)),
             (Nat.leb_spec (length s - gap_run (rev s)) i); reflexivity.
Qed.

Lemma replace_ends_within_get_ends_witness :
  let r := row "t1" "--AC-G--" in
  last (Bio.seq r) gap <> "010"%char
  /\ forall i, i < length (Bio.seq r) ->
       nth i (_replace_ends (Bio.seq r)) gap
       = if (i <? fst (_get_ends r)) || (snd (_get_ends r) <=? i)
         then missing else nth i (Bio.seq r) gap.
Proof.
  assert (H : last (Bio.seq (row "t1" "--AC-G--")) gap <> "010"%char)
    by (vm_compute; discriminate).
  split; [exact H|].
  exact (replace_ends_within_get_ends (row "t1" "--AC-G--") H).
Defined.

(* ------------------------------------------------------------------ *)
(** ** The scan and the clipping of stage one *)

Section StageOne.

Lemma mapM_length {A B} (f : A -> result B) (xs : list A) :
  forall ys, Py.mapM f xs = Ok ys -> length ys = length xs.
Proof.
  induction xs as [|x tl IH]; intros ys H; cbn [Py.mapM] in H.
  - apply Ok_inj in H. now subst ys.
  - bind_inv H. bind_inv H. apply Ok_inj in H. subst ys.
    cbn. f_equal. now apply IH.
Qed.

Lemma good_columns_length (aln : MultipleSeqAlignment) (p : float)
      (good : list bool) :
  good_columns aln p = Ok good -> length good = get_alignment_length aln.
Proof.
  unfold good_columns. intros H. bind_inv H. apply mapM_length in H.
  now rewrite length_seq in H.
Qed.

Lemma filter_seq_head (p : nat -> bool) (n : nat) :
  forall s x tl,
    filter p (List.seq s n) = x :: tl -> forall y, In y tl -> x < y.
Proof.
  induction n as [|n IH]; intros s x tl H y Hy; [discriminate|].
  cbn [List.seq filter] in H. destruct (p s).
  - injection H as <- <-. apply filter_In in Hy. destruct Hy as [Hy _].
    apply in_seq in Hy. lia.
  - eapply IH; eauto.
Qed.

Lemma last_In {A} (l : list A) (d : A) : l <> [] -> In (last l d) l.
Proof.
  induction l as [|x [|y tl] IH]; intros H; [congruence | now left |].
  right. apply IH. discriminate.
Qed.

(** The majority count of an alignment without rows is 0, unless the
    proportion is an infinity or a NaN: the product is then a NaN, which
    [int] refuses. *)
Lemma majority_no_rows (p : float) :
  majority p 0 = Ok 0%Z \/ majority p 0 = Raise ValueError.
Proof.
  unfold majority. change (Float.of_nat 0) with Float.zero.
  destruct p as [s|s| |s m e]; cbn; auto.
Qed.

Lemma running_average_nil (w : nat) (t p : float) :
  running_average [] w t p = Raise ValueError.
Proof.
  unfold running_average, good_columns. cbn [length].
  destruct (majority_no_rows p) as [-> | ->]; [|reflexivity].
  cbn [get_alignment_length fold_left List.seq Py.mapM Py.bind map].
  unfold Numpy.convolve_same. rewrite length_weights. cbn [length].
  destruct w; reflexivity.
Qed.

Lemma get_alignment_length_uniform (aln : MultipleSeqAlignment) (L : nat) :
  uniform aln L -> aln <> [] -> get_alignment_length aln = L.
Proof.
  unfold get_alignment_length. intros Hu Hne.
  assert (H : forall m,
             fold_left (fun m r => if m <? length (Bio.seq r)
                                   then length (Bio.seq r) else m) aln m
             = match aln with [] => m | _ :: _ => Nat.max m L end).
  { clear Hne. induction aln as [|r tl IH]; intros m; [reflexivity|].
    cbn [fold_left]. rewrite IH by (intros r' Hr'; apply Hu; now right).
    rewrite (Hu r) by now left.
    destruct tl; destruct (Nat.ltb_spec m L); lia. }
  rewrite H. destruct aln; [congruence | lia].
Qed.

Lemma append_uniform (acc : MultipleSeqAlignment) (r : SeqRecord) (L : nat) :
  uniform acc L -> length (Bio.seq r) = L ->
  Bio.append acc r = Ok (acc ++ [r]) /\ uniform (acc ++ [r]) L.
Proof.
  intros Hu Hr. split.
  - unfold Bio.append. destruct acc as [|r0 tl]; [reflexivity|].
    rewrite (get_alignment_length_uniform _ L Hu) by discriminate.
    now rewrite Hr, Nat.eqb_refl.
  - intros r' Hr'. apply in_app_iff in Hr'.
    destruct Hr' as [Hr'|[<-|[]]]; auto.
Qed.

Lemma stage_one_loop_uniform (s e W : nat) (rows : list SeqRecord) :
  uniform rows W ->
  forall acc,
    uniform acc (Nat.min (S e) W - s) ->
    stage_one_loop (Some s) (Some (S e)) rows acc
    = Ok (if forallb (fun r => keep_row (Bio.seq (record_slice r s (S e))))
                     rows
          then Some (acc ++ map (fun r => record_slice r s (S e)) rows)
          else None).
Proof.
  induction rows as [|r rest IH]; intros Hu acc Hacc.
  - cbn. now rewrite app_nil_r.
  - cbn [stage_one_loop forallb map].
    destruct (keep_row (Bio.seq (record_slice r s (S e)))); [|reflexivity].
    cbn [andb].
    assert (Hr : length (Bio.seq (record_slice r s (S e)))
                 = Nat.min (S e) W - s).
    { cbn [record_slice Bio.seq]. rewrite length_slice.
      rewrite (Hu r) by now left. reflexivity. }
    destruct (append_uniform acc _ _ Hacc Hr) as [-> Hacc'].
    cbn [Py.bind]. rewrite IH; [|intros r' Hr'; apply Hu; now right | exact Hacc'].
    now rewrite <- app_assoc.
Qed.

End StageOne.

(** X5.  What [running_average] returns: either [None] twice, or two
    indexes [start <= end] below the larger of the alignment length and the
    window size. *)
Theorem running_average_shape
        (alignment : MultipleSeqAlignment) (window_size : nat)
        (threshold proportion : float) (clips : option nat * option nat) :
  running_average alignment window_size threshold proportion = Ok clips ->
  clips = (None, None)
  \/ exists start_clip end_clip,
       clips = (Some start_clip, Some end_clip)
       /\ start_clip <= end_clip
       /\ end_clip < Nat.max (get_alignment_length alignment) window_size.
Proof.
  unfold running_average. intros H.
  bind_inv H. bind_inv H. apply Ok_inj in H. subst clips.
  apply good_columns_length in E. apply convolve_same_length in E0.
  rewrite where_spec, length_map, E0, E.
  destruct (filter _ _) as [|x tl] eqn:Hf; [now left|].
  right. exists x, (last (x :: tl) 0). split; [reflexivity|].
  assert (Hlast : In (last (x :: tl) 0) (x :: tl))
    by (apply last_In; discriminate).
  split.
  - destruct Hlast as [<-|Hl]; [lia|].
    pose proof (filter_seq_head _ _ _ _ _ Hf _ Hl). lia.
  - assert (Hall : forall y, In y (x :: tl) ->
               y < Nat.max (get_alignment_length alignment) window_size).
    { intros y Hy. rewrite <- Hf in Hy. apply filter_In in Hy.
      destruct Hy as [Hy _]. apply in_seq in Hy. lia. }
    now apply Hall.
Qed.

Lemma running_average_shape_witness :
  (Some 1, Some 6) = (@None nat, @None nat)
  \/ exists start_clip end_clip,
       (Some 1, Some 6) = (Some start_clip, Some end_clip)
       /\ start_clip <= end_clip
       /\ end_clip < Nat.max (get_alignment_length narrow) 8.
Proof.
  apply (running_average_shape
           narrow 8 (Float.of_Q (1 # 2)) (Float.of_Q (3 # 4))).
  vm_compute. reflexivity.
Defined.

(** X6.  Stage one on an alignment whose rows have one length, when the
    scan returned [start] and a non-zero [end]: the result is [None] when
    the slice [start:end] of some row is made of gap markers only, and else
    the alignment of the slices [start:end] of all rows, in order. *)
Theorem stage_one_trimming_exact
        (alignment : MultipleSeqAlignment) (window_size : nat)
        (threshold proportion : float) (width start_clip e : nat) :
  uniform alignment width ->
  running_average alignment window_size threshold proportion
  = Ok (Some start_clip, Some (S e)) ->
  stage_one_trimming (Some alignment) window_size threshold proportion
  = Ok (if forallb (fun r =>
                      keep_row (Bio.seq (record_slice r start_clip (S e))))
                   alignment
        then Some (map (fun r => record_slice r start_clip (S e)) alignment)
        else None).
Proof.
  intros Hu Hra. unfold stage_one_trimming. rewrite Hra. cbn [Py.bind fst snd].
  rewrite (stage_one_loop_uniform _ _ width) by (auto; intros r []).
  reflexivity.
Qed.

Lemma stage_one_trimming_exact_witness :
  stage_one_trimming (Some conserved) 4
                     (Float.of_Q (3 # 4)) (Float.of_Q (3 # 4))
  = Ok (if forallb (fun r => keep_row (Bio.seq (record_slice r 1 13)))
                   conserved
        then Some (map (fun r => record_slice r 1 13) conserved)
        else None).
Proof.
  apply (stage_one_trimming_exact
           conserved 4 (Float.of_Q (3 # 4)) (Float.of_Q (3 # 4)) 14 1 12).
  - intros r Hr. cbn in Hr.
    repeat (destruct Hr as [<- | Hr]; [reflexivity|]). destruct Hr.
  - vm_compute. reflexivity.
Defined.

(** X7.  Stage one returns [None] when the scan found no column, and also
    when the last column it found is column 0: [end] is then 0 and fails
    the test [start >= 0 and end]. *)
Theorem stage_one_trimming_none
        (alignment : MultipleSeqAlignment) (window_size : nat)
        (threshold proportion : float) (start_clip end_clip : option nat) :
  running_average alignment window_size threshold proportion
  = Ok (start_clip, end_clip) ->
  end_clip = None \/ end_clip = Some 0 ->
  stage_one_trimming (Some alignment) window_size threshold proportion
  = Ok None.
Proof.
  intros Hra Hend. unfold stage_one_trimming. rewrite Hra.
  cbn [Py.bind fst snd].
  destruct alignment as [|r rest].
  - rewrite running_average_nil in Hra. discriminate.
  - cbn [stage_one_loop].
    destruct start_clip, Hend as [-> | ->]; reflexivity.
Qed.

Lemma stage_one_trimming_none_witness :
  stage_one_trimming (Some first_column_only) 1
    (Float.of_Q 1) (Float.of_Q (3 # 4)) = Ok None.
Proof.
  apply (stage_one_trimming_none
           first_column_only 1 (Float.of_Q 1) (Float.of_Q (3 # 4))
           (Some 0) (Some 0)).
  - vm_compute. reflexivity.
  - right. reflexivity.
Defined.


(** X8.  A window of size 0, and an alignment of width 0, never give a
    scan: when the column loop completes, numpy refuses the empty array and
    [running_average] raises [ValueError]. *)
Theorem running_average_degenerate
        (alignment : MultipleSeqAlignment) (window_size : nat)
        (threshold proportion : float) :
  get_alignment_length alignment = 0 \/ window_size = 0 ->
  running_average alignment window_size threshold proportion
  = match good_columns alignment proportion with
    | Ok _ => Raise ValueError
    | Raise e => Raise e
    end.
Proof.
  intros Hdeg. unfold running_average.
  destruct (good_columns alignment proportion) as [good|e] eqn:Hgood;
    [|reflexivity].
  cbn [Py.bind]. apply good_columns_length in Hgood.
  destruct Hdeg as [Hw| ->].
  - rewrite convolve_same_empty by lia. reflexivity.
  - unfold Numpy.convolve_same. cbn [Numpy.weights repeat length].
    rewrite length_map. cbn [Nat.ltb Nat.leb].
    rewrite length_map. cbn [length].
    destruct (length good =? 0); reflexivity.
Qed.

Lemma running_average_degenerate_witness :
  running_average conserved 0 (Float.of_Q (3 # 4)) (Float.of_Q (3 # 4))
  = match good_columns conserved (Float.of_Q (3 # 4)) with
    | Ok _ => Raise ValueError
    | Raise e => Raise e
    end.
Proof.
  apply (running_average_degenerate
           conserved 0 (Float.of_Q (3 # 4)) (Float.of_Q (3 # 4))).
  right. reflexivity.
Defined.

(** X9.  The method ['notrim'] leaves the alignment as it is and prints
    nothing.  On an alignment without rows ['notrim'] raises [IndexError]
    (the report reads the first record) and every other method raises
    [ValueError] (the scan of pass A). *)
Theorem trim_alignment_notrim_and_no_rows :
  (forall first rest window_size threshold proportion,
      trim_alignment (first :: rest) "notrim" window_size threshold proportion
      = Ok (mkOutcome (Some (first :: rest)) []))
  /\ (forall method window_size threshold proportion,
        trim_alignment [] method window_size threshold proportion
        = Raise (if String.eqb method "notrim"
                 then IndexError else ValueError)).
Proof.
  split.
  - reflexivity.
  - intros method w t p. unfold trim_alignment.
    destruct (String.eqb method "notrim"); [reflexivity|].
    unfold stage_one_trimming. now rewrite running_average_nil.
Qed.

(** X10.  What [trim_alignment] returns when it returns: either an
    alignment with at least one row and nothing printed, or [None] with the
    one line of the drop report, naming the description of the first input
    record; the second happens only in a method other than ['notrim'],
    after passes A and B both returned an alignment and pass C returned
    [None]. *)
Theorem trim_alignment_outcome
        (alignment : MultipleSeqAlignment) (method : string)
        (window_size : nat) (threshold proportion : float) (o : outcome) :
  trim_alignment alignment method window_size threshold proportion = Ok o ->
  (exists first rest, trimmed o = Some (first :: rest) /\ printed o = [])
  \/ (trimmed o = None
      /\ String.eqb method "notrim" = false
      /\ (exists first rest,
             alignment = first :: rest
             /\ printed o = [drop_message (description first)])
      /\ exists s1_trimmed s2_trimmed,
           stage_one_trimming (Some alignment)
                              window_size threshold proportion
           = Ok (Some s1_trimmed)
           /\ stage_two_trimming (Some s1_trimmed) 5 = Ok (Some s2_trimmed)
           /\ stage_one_trimming (Some s2_trimmed)
                                 window_size threshold proportion
              = Ok None).
Proof.
  unfold trim_alignment. intros H.
  destruct (String.eqb method "notrim") eqn:Hm.
  - left. unfold report in H. destruct alignment as [|first rest];
      cbn [falsy] in H; [discriminate|].
    apply Ok_inj in H. subst o. now exists first, rest.
  - bind_inv H. bind_inv H. bind_inv H.
    destruct a as [s1|]; [|discriminate E0].
    destruct a0 as [s2|]; [|discriminate E1].
    destruct alignment as [|first rest].
    { unfold stage_one_trimming in E.
      rewrite running_average_nil in E. discriminate. }
    destruct a1 as [out|].
    + left.
      apply stage_one_trimming_Some in E1.
      destruct E1 as (s2' & s' & e' & [= <-] & ->).
      apply stage_two_trimming_Some in E0.
      destruct E0 as (s1' & [= <-] & Hshape).
      apply stage_one_trimming_Some in E.
      destruct E as (aln & s & e & [= <-] & ->).
      cbn [map] in Hshape.
      inversion Hshape as [|? r2 ? rest2 _ _]; subst.
      cbn [map report falsy] in H. apply Ok_inj in H. subst o.
      cbn [trimmed printed]. eauto.
    + right. cbn [report falsy] in H. apply Ok_inj in H. subst o.
      cbn [trimmed printed]. repeat split; eauto.
Qed.

Lemma trim_alignment_outcome_witness :
  let o := mkOutcome None [drop_message "t1"] in
  (exists first rest, trimmed o = Some (first :: rest) /\ printed o = [])
  \/ (trimmed o = None
      /\ String.eqb "running" "notrim" = false
      /\ (exists first rest,
             narrow_after_masking = first :: rest
             /\ printed o = [drop_message (description first)])
      /\ exists s1_trimmed s2_trimmed,
           stage_one_trimming (Some narrow_after_masking) 8
                              (Float.of_Q 1) (Float.of_Q (3 # 4))
           = Ok (Some s1_trimmed)
           /\ stage_two_trimming (Some s1_trimmed) 5 = Ok (Some s2_trimmed)
           /\ stage_one_trimming (Some s2_trimmed) 8
                                 (Float.of_Q 1) (Float.of_Q (3 # 4))
              = Ok None).
Proof.
  apply (trim_alignment_outcome narrow_after_masking "running" 8
           (Float.of_Q 1) (Float.of_Q (3 # 4))
           (mkOutcome None [drop_message "t1"])).
  vm_compute. reflexivity.
Defined.

(* ------------------------------------------------------------------ *)
(** ** Columns that are all BAD, columns that are all classified *)

Section ColumnLoop.

Lemma filter_none {A} (p : A -> bool) (l : list A) :
  (forall x, In x l -> p x = false) -> filter p l = [].
Proof.
  induction l as [|x tl IH]; intros H; [reflexivity|].
  cbn. rewrite (H x) by now left. apply IH. intros y Hy. apply H. now right.
Qed.

Lemma where_none (cond : list bool) :
  (forall k, nth k cond false = false) -> Numpy.where_ cond = [].
Proof.
  intros H. rewrite where_spec. apply filter_none. intros k _. apply H.
Qed.

(** No GOOD column, a positive threshold: the scan finds nothing. *)
Lemma scan_all_bad (alignment : MultipleSeqAlignment) (window_size : nat)
      (threshold proportion : float) (good : list bool) :
  good_columns alignment proportion = Ok good ->
  good <> [] ->
  (forall b, In b good -> b = false) ->
  1 <= window_size ->
  Float.ltb Float.zero threshold = true ->
  running_average alignment window_size threshold proportion
  = Ok (None, None).
Proof.
  intros Hgood Hne Hbad Hw Ht. unfold running_average.
  rewrite Hgood. cbn [Py.bind].
  assert (Hlen : 1 <= length good) by (destruct good; [congruence|cbn; lia]).
  destruct (Nat.lt_ge_cases (length good) window_size) as [Hlt|Hge].
  - rewrite convolve_same_weights by lia. cbn [Py.bind].
    rewrite map_map, where_none; [reflexivity|].
    intros k. rewrite nth_map_seq. destruct (k <? window_size); [|reflexivity].
    apply nullish_below; [exact Ht|]. now apply conv_at_all_bad.
  - rewrite convolve_same_data by lia. cbn [Py.bind].
    rewrite map_map, where_none; [reflexivity|].
    intros k. rewrite nth_map_seq. destruct (k <? length good); [|reflexivity].
    apply nullish_below; [exact Ht|]. now apply conv_at_all_bad.
Qed.

Lemma mapM_pointwise {A B} (f : A -> result B) (g : A -> B) (xs : list A) :
  (forall x, In x xs -> f x = Ok (g x)) -> Py.mapM f xs = Ok (map g xs).
Proof.
  induction xs as [|x tl IH]; intros H; [reflexivity|].
  cbn [Py.mapM map]. rewrite (H x) by now left. cbn [Py.bind].
  rewrite IH by (intros y Hy; apply H; now right). reflexivity.
Qed.

Lemma column_uniform (aln : MultipleSeqAlignment) (W c : nat) :
  uniform aln W -> c < W -> Bio.column aln c = Ok (column_of aln c).
Proof.
  intros Hu Hc. unfold Bio.column, column_of. apply mapM_pointwise.
  intros r Hr. rewrite (nth_error_nth' _ gap) by (rewrite (Hu r Hr); exact Hc).
  reflexivity.
Qed.

Lemma column_has_letter (aln : MultipleSeqAlignment) (c : nat) :
  (exists r, In r aln /\ nth c (Bio.seq r) gap <> gap)
  <-> exists x, In x (column_of aln c) /\ x <> gap.
Proof.
  unfold column_of. split.
  - intros (r & Hr & Hne). exists (nth c (Bio.seq r) gap). split; [|exact Hne].
    apply in_map_iff. now exists r.
  - intros (x & Hx & Hne). apply in_map_iff in Hx.
    destruct Hx as (r & <- & Hr). now exists r.
Qed.

Lemma count_occ_le_length (l : list ascii) (x : ascii) :
  count_occ ascii_dec l x <= length l.
Proof.
  induction l as [|y tl IH]; cbn; [lia|].
  destruct (ascii_dec y x); lia.
Qed.

Lemma count_occ_all (l : list ascii) (x : ascii) :
  (forall y, In y l -> y = x) -> count_occ ascii_dec l x = length l.
Proof.
  induction l as [|y tl IH]; intros H; cbn; [reflexivity|].
  destruct (ascii_dec y x) as [_|Hne].
  - f_equal. apply IH. intros z Hz. apply H. now right.
  - exfalso. apply Hne, H. now left.
Qed.

(** When every column holds a letter other than the gap marker, or the
    majority count is below the number of rows, the column loop raises
    nothing and classifies every column. *)
Lemma good_columns_classified (alignment : MultipleSeqAlignment)
      (proportion : float) (width : nat) (majority_of_characters : Z) :
  uniform alignment width ->
  alignment <> [] ->
  majority proportion (length alignment) = Ok majority_of_characters ->
  (forall c, c < width ->
     (exists r, In r alignment /\ nth c (Bio.seq r) gap <> gap)
     \/ (majority_of_characters < Z.of_nat (length alignment))%Z) ->
  good_columns alignment proportion
  = Ok (map (fun c => verdict majority_of_characters (column_of alignment c))
            (List.seq 0 width)).
Proof.
  intros Hu Hne Hmaj Hcols. unfold good_columns.
  rewrite Hmaj. cbn [Py.bind].
  rewrite (get_alignment_length_uniform _ _ Hu Hne).
  apply mapM_pointwise. intros c Hc. apply in_seq in Hc.
  rewrite (column_uniform _ _ _ Hu) by lia. cbn [Py.bind].
  unfold verdict.
  pose proof (column_is_good_spec majority_of_characters
                                  (column_of alignment c)) as Hspec.
  cbn zeta in Hspec.
  destruct (column_is_good _ _) as [b|e]; [reflexivity|].
  exfalso. destruct Hspec as (_ & Hle & Hall).
  destruct (Hcols c) as [Hletter|Hlow]; [lia| |].
  - apply column_has_letter in Hletter.
    destruct Hletter as (x & Hx & Hxne). now apply Hxne, Hall.
  - rewrite (count_occ_all _ _ Hall) in Hle.
    unfold column_of in Hle. rewrite length_map in Hle. lia.
Qed.

End ColumnLoop.



(** X12.  On a non-empty alignment whose rows have one length, the column
    loop of the scan raises nothing when every column holds a letter other
    than the gap marker or the majority count is below the number of rows.
    It then classifies every column: a column is GOOD exactly when its gap
    markers are at most the majority count and some other letter occurs at
    least the majority count of times. *)
Theorem good_columns_complete
        (alignment : MultipleSeqAlignment) (proportion : float)
        (width : nat) (majority_of_characters : Z) :
  uniform alignment width ->
  alignment <> [] ->
  majority proportion (length alignment) = Ok majority_of_characters ->
  (forall c, c < width ->
     (exists r, In r alignment /\ nth c (Bio.seq r) gap <> gap)
     \/ (majority_of_characters < Z.of_nat (length alignment))%Z) ->
  exists good,
    good_columns alignment proportion = Ok good
    /\ length good = width
    /\ forall c, c < width ->
         (nth c good false = true
          <-> (Z.of_nat (count_occ ascii_dec (column_of alignment c) gap)
               <= majority_of_characters)%Z
              /\ exists x,
                   In x (column_of alignment c) /\ x <> gap
                   /\ (majority_of_characters
                       <= Z.of_nat (count_occ ascii_dec
                                      (column_of alignment c) x))%Z).
Proof.
  intros Hu Hne Hmaj Hcols.
  eexists. split;
    [exact (good_columns_classified _ _ width _ Hu Hne Hmaj Hcols)|].
  split; [now rewrite length_map, length_seq|].
  intros c Hc. rewrite nth_map_seq.
  destruct (Nat.ltb_spec c width) as [_|]; [|lia]. cbn [Nat.add].
  unfold verdict.
  pose proof (column_is_good_spec majority_of_characters
                                  (column_of alignment c)) as Hspec.
  cbn zeta in Hspec.
  destruct (column_is_good _ _) as [[|]|e].
  - split; [intros _; exact Hspec | reflexivity].
  - split; [discriminate|]. intros (Hle & x & Hx & Hxne & Hocc). exfalso.
    destruct Hspec as [Hgt|[_ Hlow]]; [lia|].
    specialize (Hlow x Hx Hxne). lia.
  - split; [discriminate|]. intros (_ & x & Hx & Hxne & _). exfalso.
    destruct Hspec as (_ & _ & Hall). now apply Hxne, Hall.
Qed.

Lemma good_columns_complete_witness :
  exists good,
    good_columns conserved (Float.of_Q (3 # 4)) = Ok good
    /\ length good = 14
    /\ forall c, c < 14 ->
         (nth c good false = true
          <-> (Z.of_nat (count_occ ascii_dec (column_of conserved c) gap)
               <= 3)%Z
              /\ exists x,
                   In x (column_of conserved c) /\ x <> gap
                   /\ (3 <= Z.of_nat (count_occ ascii_dec
                                        (column_of conserved c) x))%Z).
Proof.
  apply (good_columns_complete conserved (Float.of_Q (3 # 4)) 14 3).
  - intros r Hr. cbn in Hr.
    repeat (destruct Hr as [<- | Hr]; [reflexivity|]). destruct Hr.
  - discriminate.
  - vm_compute. reflexivity.
  - intros c Hc. right. vm_compute. reflexivity.
Defined.

(** X13.  An alignment of gap markers only (one row at least, one column
    at least, rows of one length), scanned with a window of size 1 at
    least, a positive threshold and a majority count below the number of
    rows: stage one returns [None], and [trim_alignment], in a method other
    than ['notrim'], raises [AttributeError]. *)
Theorem gaps_only_alignment
        (alignment : MultipleSeqAlignment) (method : string)
        (window_size : nat) (threshold proportion : float) (width : nat)
        (majority_of_characters : Z) :
  uniform alignment width ->
  alignment <> [] ->
  1 <= width ->
  (forall r x, In r alignment -> In x (Bio.seq r) -> x = gap) ->
  majority proportion (length alignment) = Ok majority_of_characters ->
  (majority_of_characters < Z.of_nat (length alignment))%Z ->
  1 <= window_size ->
  Float.ltb Float.zero threshold = true ->
  String.eqb method "notrim" = false ->
  stage_one_trimming (Some alignment) window_size threshold proportion
  = Ok None
  /\ trim_alignment alignment method window_size threshold proportion
     = Raise AttributeError.
Proof.
  intros Hu Hne Hw1 Hgaps Hmaj Hlow Hw Ht Hm.
  assert (Hgood := good_columns_classified alignment proportion width _
                     Hu Hne Hmaj (fun c _ => or_intror Hlow)).
  assert (Hra : running_average alignment window_size threshold proportion
                = Ok (None, None)).
  { apply (scan_all_bad _ _ _ _ _ Hgood); auto.
    - destruct width; [lia | discriminate].
    - intros b Hb. apply in_map_iff in Hb. destruct Hb as (c & <- & Hc).
      apply in_seq in Hc. unfold verdict.
      pose proof (column_is_good_spec majority_of_characters
                    (column_of alignment c)) as Hspec.
      cbn zeta in Hspec.
      destruct (column_is_good _ _) as [[|]|e]; try reflexivity.
      exfalso. destruct Hspec as [Hle _].
      assert (Hall : forall y, In y (column_of alignment c) -> y = gap).
      { intros y Hy. apply in_map_iff in Hy. destruct Hy as (r & <- & Hr).
        apply (Hgaps r); [exact Hr|]. apply nth_In.
        rewrite (Hu r Hr). lia. }
      rewrite (count_occ_all _ _ Hall) in Hle.
      unfold column_of in Hle. rewrite length_map in Hle. lia. }
  assert (H1 : stage_one_trimming (Some alignment) window_size
                                  threshold proportion = Ok None).
  { unfold stage_one_trimming. rewrite Hra. cbn [Py.bind fst snd].
    destruct alignment; [congruence | reflexivity]. }
  split; [exact H1|].
  unfold trim_alignment. now rewrite Hm, H1.
Qed.

Lemma gaps_only_alignment_witness :
  let threshold := Float.of_Q (3 # 4) in
  let proportion := Float.of_Q (3 # 4) in
  stage_one_trimming (Some all_gaps) 4 threshold proportion = Ok None
  /\ trim_alignment all_gaps "running" 4 threshold proportion
     = Raise AttributeError.
Proof.
  apply (gaps_only_alignment
           all_gaps "running" 4 (Float.of_Q (3 # 4)) (Float.of_Q (3 # 4))
           5 3).
  - intros r Hr. cbn in Hr.
    repeat (destruct Hr as [<- | Hr]; [reflexivity|]). destruct Hr.
  - discriminate.
  - lia.
  - intros r x Hr Hx. cbn in Hr.
    repeat (destruct Hr as [<- | Hr];
            [cbn in Hx; repeat (destruct Hx as [<- | Hx]; [reflexivity|]);
             destruct Hx|]).
    destruct Hr.
  - vm_compute. reflexivity.
  - vm_compute. reflexivity.
  - lia.
  - vm_compute. reflexivity.
  - reflexivity.
Defined.

(* ------------------------------------------------------------------ *)
(** ** Where the letters of a result come from *)

Section Provenance.

Lemma trim_row_shape (consensus_array : list ascii) (sequence : SeqRecord)
      (window_size : nat) (bs be bs' be' : option nat) (trim : list ascii) :
  trim_row consensus_array sequence window_size bs be = Ok (trim, bs', be') ->
  exists lo hi,
    trim = Py.assign_suffix hi gap
             (Py.assign_prefix lo gap (Bio.seq sequence)).
Proof.
  unfold trim_row. intros H. bind_inv H. bind_inv H. bind_inv H.
  apply Ok_inj in H. injection H as <- _ _. eauto.
Qed.

Lemma stage_two_loop_rows (consensus_array : list ascii) (window_size : nat)
      (rows : list SeqRecord) :
  forall bs be acc out,
    stage_two_loop consensus_array rows window_size bs be acc
    = Ok (Some out) ->
    exists new, out = acc ++ new /\ Forall2 masked_copy rows new.
Proof.
  induction rows as [|r rest IH]; intros bs be acc out H.
  - cbn in H. injection H as <-. exists []. split.
    + now rewrite app_nil_r.
    + constructor.
  - cbn [stage_two_loop] in H.
    bind_inv H. destruct a as [[trim bs'] be'].
    destruct (keep_row trim); [|discriminate H].
    bind_inv H. apply append_Ok in E0. subst a.
    apply IH in H. destruct H as (new & -> & Hnew).
    exists (_record_formatter trim (Bio.id r) :: new). split.
    + now rewrite <- app_assoc.
    + constructor; [|exact Hnew].
      apply trim_row_shape in E. destruct E as (lo & hi & ->).
      now exists lo, hi.
Qed.

Lemma masked_copy_length (r r' : SeqRecord) :
  masked_copy r r' -> length (Bio.seq r') = length (Bio.seq r).
Proof.
  intros (lo & hi & ->). cbn.
  now rewrite length_assign_suffix, length_assign_prefix.
Qed.

Lemma masked_copy_letters (r r' : SeqRecord) (i : nat) :
  masked_copy r r' ->
  i < length (Bio.seq r) ->
  nth i (Bio.seq r') gap = gap
  \/ nth i (Bio.seq r') gap = nth i (Bio.seq r) gap.
Proof.
  intros (lo & hi & ->) Hi. cbn [_record_formatter Bio.seq].
  rewrite mask_nth by exact Hi.
  destruct ((i <? lo) || (hi <=? i)); [now left | now right].
Qed.

Lemma trim_alignment_passes (alignment : MultipleSeqAlignment)
      (method : string) (window_size : nat) (threshold proportion : float)
      (o : outcome) (out : MultipleSeqAlignment) :
  trim_alignment alignment method window_size threshold proportion = Ok o ->
  trimmed o = Some out ->
  (String.eqb method "notrim" = true /\ out = alignment)
  \/ (String.eqb method "notrim" = false
      /\ exists s e s' e' s2,
           Forall2 masked_copy
                   (map (fun r => record_slice r s e) alignment) s2
           /\ out = map (fun r => record_slice r s' e') s2).
Proof.
  unfold trim_alignment. intros H Ht.
  destruct (String.eqb method "notrim").
  - apply report_trimmed in H. left. split; congruence.
  - right. split; [reflexivity|].
    bind_inv H. bind_inv H. bind_inv H.
    apply report_trimmed in H. rewrite Ht in H. subst a1.
    apply stage_one_trimming_Some in E1.
    destruct E1 as (s2 & s' & e' & -> & ->).
    unfold stage_two_trimming in E0. bind_inv E0.
    destruct a as [s1|]; [|discriminate E0].
    apply stage_two_loop_rows in E0. destruct E0 as (new & [= ->] & Hnew).
    apply stage_one_trimming_Some in E.
    destruct E as (aln & s & e & [= <-] & [= ->]).
    now exists s, e, s', e', new.
Qed.

End Provenance.

(** X14.  A surviving pass of stage two holds one record for every row, in
    order: it has the row's length, its [id], [name] and [description] are
    the row's [id], and each of its letters is the row's letter at that
    column or the gap marker. *)
Theorem stage_two_trimming_rows
        (rows out : MultipleSeqAlignment) (window_size : nat) :
  stage_two_trimming (Some rows) window_size = Ok (Some out) ->
  Forall2 (fun r r' =>
             length (Bio.seq r') = length (Bio.seq r)
             /\ Bio.id r' = Bio.id r
             /\ Bio.name r' = Bio.id r
             /\ Bio.description r' = Bio.id r
             /\ forall i, nth i (Bio.seq r') gap = gap
                          \/ nth i (Bio.seq r') gap = nth i (Bio.seq r) gap)
          rows out.
Proof.
  unfold stage_two_trimming. intros H. bind_inv H.
  apply stage_two_loop_rows in H. destruct H as (new & -> & Hnew).
  clear E. cbn [app].
  induction Hnew as [|r r' rows' new' Hr _ IH]; [constructor|].
  constructor; [|exact IH].
  pose proof (masked_copy_length _ _ Hr) as Hlen.
  split; [exact Hlen|].
  assert (Hl := Hr). destruct Hl as (lo & hi & ->).
  repeat split; try reflexivity.
  intros i. destruct (Nat.lt_ge_cases i (length (Bio.seq r))) as [Hi|Hi].
  - now apply masked_copy_letters.
  - left. apply nth_overflow. now rewrite Hlen.
Qed.

Lemma stage_two_trimming_rows_witness :
  let rows := [ row "t1" "ACGTACGTACGT"; row "t2" "ACGTACGTACGT" ] in
  let out := [ row "t1" "--GTACGTAC--"; row "t2" "--GTACGTAC--" ] in
  Forall2 (fun r r' =>
             length (Bio.seq r') = length (Bio.seq r)
             /\ Bio.id r' = Bio.id r
             /\ Bio.name r' = Bio.id r
             /\ Bio.description r' = Bio.id r
             /\ forall i, nth i (Bio.seq r') gap = gap
                          \/ nth i (Bio.seq r') gap = nth i (Bio.seq r) gap)
          rows out.
Proof.
  apply (stage_two_trimming_rows
           [ row "t1" "ACGTACGTACGT"; row "t2" "ACGTACGTACGT" ]
           [ row "t1" "--GTACGTAC--"; row "t2" "--GTACGTAC--" ] 5).
  vm_compute. reflexivity.
Defined.

(** X15.  Every letter of an alignment that [trim_alignment] leaves in
    [self.trimmed] is the gap marker or a letter of the input: row by row,
    in order and under the same [id], the letter at column [k] of the result
    is the gap marker or the input row's letter at column [offset + k], for
    one [offset] common to all rows. *)
Theorem trim_alignment_letters
        (alignment : MultipleSeqAlignment) (method : string)
        (window_size : nat) (threshold proportion : float)
        (o : outcome) (out : MultipleSeqAlignment) :
  trim_alignment alignment method window_size threshold proportion = Ok o ->
  trimmed o = Some out ->
  exists offset, Forall2 (drawn_from offset) alignment out.
Proof.
  intros H Ht.
  destruct (trim_alignment_passes _ _ _ _ _ _ _ H Ht)
    as [[_ ->] | (_ & s & e & s' & e' & s2 & Hs2 & ->)].
  - exists 0. clear H Ht. induction alignment as [|r rest IH]; constructor;
      [|exact IH].
    split; [reflexivity|]. intros k _. now right.
  - exists (s + s'). clear H Ht. revert s2 Hs2.
    induction alignment as [|r rest IH]; intros s2 Hs2;
      inversion Hs2 as [|? r2 ? rest2 Hr Hrest]; subst; cbn [map];
      constructor; [|now apply IH].
    pose proof (masked_copy_length _ _ Hr) as Hlen.
    cbn [record_slice Bio.seq] in Hlen. rewrite length_slice in Hlen.
    split.
    + destruct Hr as (lo & hi & ->). reflexivity.
    + intros k Hk. cbn [record_slice Bio.seq] in *.
      rewrite length_slice in Hk.
      rewrite nth_slice by lia.
      destruct (masked_copy_letters _ r2 (s' + k) Hr) as [Hg|Hsame].
      * cbn [record_slice Bio.seq]. rewrite length_slice. lia.
      * now left.
      * right. rewrite Hsame. cbn [record_slice Bio.seq].
        rewrite nth_slice by lia. f_equal. lia.
Qed.

Lemma trim_alignment_letters_witness :
  exists offset,
    Forall2 (drawn_from offset) conserved
            [ row "t1" "TACGTA"; row "t2" "TACGTA"; row "t3" "TACGTA";
              row "t4" "TACGTA" ].
Proof.
  apply (trim_alignment_letters
           conserved "running" 4 (Float.of_Q (3 # 4)) (Float.of_Q (3 # 4))
           (mkOutcome
              (Some [ row "t1" "TACGTA"; row "t2" "TACGTA"; row "t3" "TACGTA";
                      row "t4" "TACGTA" ]) []));
    vm_compute; reflexivity.
Defined.

(** X16.  In a method other than ['notrim'], the records that
    [trim_alignment] leaves in [self.trimmed] have their [id] for [name] and
    for [description]: the names and descriptions of the input records are
    not carried over. *)
Theorem trim_alignment_relabels
        (alignment : MultipleSeqAlignment) (method : string)
        (window_size : nat) (threshold proportion : float)
        (o : outcome) (out : MultipleSeqAlignment) :
  String.eqb method "notrim" = false ->
  trim_alignment alignment method window_size threshold proportion = Ok o ->
  trimmed o = Some out ->
  Forall (fun r => Bio.name r = Bio.id r /\ Bio.description r = Bio.id r)
         out.
Proof.
  intros Hm H Ht. apply Forall_forall. intros r Hr.
  destruct (trim_alignment_passes _ _ _ _ _ _ _ H Ht)
    as [[Hm' _] | (_ & s & e & s' & e' & s2 & Hs2 & ->)]; [congruence|].
  apply in_map_iff in Hr. destruct Hr as (r2 & <- & Hr2).
  cbn [record_slice Bio.name Bio.id Bio.description].
  assert (Hall : forall l1 l2, Forall2 masked_copy l1 l2 ->
                   forall x, In x l2 ->
                     Bio.name x = Bio.id x /\ Bio.description x = Bio.id x).
  { intros l1 l2 HF. induction HF as [|a b la lb Hab _ IH]; intros x Hx;
      [destruct Hx|].
    destruct Hx as [<-|Hx]; [|now apply IH].
    destruct Hab as (lo & hi & ->). now split. }
  now apply (Hall _ _ Hs2).
Qed.

Lemma trim_alignment_relabels_witness :
  Forall (fun r => Bio.name r = Bio.id r /\ Bio.description r = Bio.id r)
         [ mkSeqRecord (list_ascii_of_string "TACGTA") "t1" "t1" "t1";
           mkSeqRecord (list_ascii_of_string "TACGTA") "t2" "t2" "t2" ].
Proof.
  apply (trim_alignment_relabels
           [ mkSeqRecord (list_ascii_of_string "TACGTACGTACGTA")
                         "t1" "first taxon" "sampled 2012";
             mkSeqRecord (list_ascii_of_string "TACGTACGTACGTA")
                         "t2" "second taxon" "sampled 2013" ]
           "running" 4 (Float.of_Q (3 # 4)) (Float.of_Q (1 # 2))
           (mkOutcome
              (Some [ mkSeqRecord (list_ascii_of_string "TACGTA")
                                  "t1" "t1" "t1";
                      mkSeqRecord (list_ascii_of_string "TACGTA")
                                  "t2" "t2" "t2" ]) []));
    vm_compute; reflexivity.
Defined.

(* ------------------------------------------------------------------ *)
(** ** What a successful scan of a row implies *)

Section RunFacts.

(** The facts on [gm] that the scans rely on. *)
Lemma row_gm_facts (consensus_array : list ascii) (sequence : SeqRecord)
      (compare gm : list bool) :
  row_compare consensus_array sequence = Ok compare ->
  row_gm consensus_array sequence 5 = Ok gm ->
  (forall k, nth k gm false = true
             <-> 2 <= k /\ forall j, k - 2 <= j <= k + 2 ->
                                     nth j compare false = true)
  /\ length gm = Nat.max (length compare) 5
  /\ nth (length gm - 1) gm false = false
  /\ nth (length (rev gm) - 1) (rev gm) false = false.
Proof.
  intros Hcmp Hgm.
  unfold row_gm in Hgm. rewrite Hcmp in Hgm. cbn [Py.bind] in Hgm.
  destruct (Numpy.convolve_same _ _) as [ra|] eqn:Hra; [|discriminate].
  cbn [Py.bind] in Hgm. apply Ok_inj in Hgm.
  assert (Hspec : forall k, nth k gm false = true
                            <-> 2 <= k /\ forall j, k - 2 <= j <= k + 2 ->
                                                    nth j compare false = true)
    by (rewrite <- Hgm; now apply gm_spec).
  assert (Hlen : length gm = Nat.max (length compare) 5)
    by (rewrite <- Hgm, length_map; now apply convolve_same_length).
  split; [exact Hspec|]. split; [exact Hlen|]. split.
  - destruct (nth (length gm - 1) gm false) eqn:E; [|reflexivity].
    exfalso. apply Hspec in E. destruct E as [_ E].
    assert (Ht : nth (length gm - 1 + 2) compare false = true)
      by (apply E; lia).
    apply nth_true_lt in Ht. lia.
  - rewrite length_rev.
    destruct (Nat.eq_dec (length gm) 0) as [E0|Hne].
    + destruct gm; [reflexivity | discriminate].
    + rewrite rev_nth by lia.
      replace (length gm - S (length gm - 1)) with 0 by lia.
      destruct (nth 0 gm false) eqn:E; [|reflexivity].
      apply Hspec in E. lia.
Qed.

End RunFacts.

(** X18.  When both scans of a row succeed, with [i] from the forward scan
    and [j] from the backward one: the row agrees with the consensus at
    nine consecutive compared positions at least, [i-2 .. i+6]; [i] and [j]
    are 2 at least, so the first two and the last two compared letters are
    always masked; and [bad_start + 5 <= bad_end], so five columns at least
    are kept. *)
Theorem successful_scan_needs_nine_matches
        (consensus_array : list ascii) (sequence : SeqRecord)
        (compare gm : list bool) (i j : nat) :
  row_compare consensus_array sequence = Ok compare ->
  row_gm consensus_array sequence 5 = Ok gm ->
  first_run gm 0 = Some i ->
  first_run (rev gm) 0 = Some j ->
  9 <= length compare
  /\ length gm = length compare
  /\ (forall k, i - 2 <= k <= i + 6 -> nth k compare false = true)
  /\ 2 <= i
  /\ 2 <= j
  /\ i + 5 <= length gm - j.
Proof.
  intros Hcmp Hgm Hi Hj.
  destruct (row_gm_facts _ _ _ _ Hcmp Hgm) as (Hspec & Hlen & Hlast & Hfirst).
  apply first_run_spec in Hi; [|exact Hlast].
  apply first_run_spec in Hj; [|exact Hfirst].
  destruct Hi as [Hrun Hmin]. destruct Hj as [Hrunr _].
  assert (H0 : nth i gm false = true)
    by (specialize (Hrun 0); rewrite Nat.add_0_r in Hrun; apply Hrun; lia).
  assert (H4 : nth (i + 4) gm false = true) by (apply Hrun; lia).
  apply Hspec in H0. apply Hspec in H4.
  destruct H0 as [Hi2 H0]. destruct H4 as [_ H4].
  assert (Hnine : forall k, i - 2 <= k <= i + 6 ->
                            nth k compare false = true).
  { intros k Hk. destruct (Nat.le_gt_cases k (i + 2)).
    - apply H0. lia.
    - apply H4. lia. }
  assert (H6 : i + 6 < length compare)
    by (apply nth_true_lt, Hnine; lia).
  assert (Hlen' : length gm = length compare) by lia.
  assert (Hr0 : nth j (rev gm) false = true)
    by (specialize (Hrunr 0); rewrite Nat.add_0_r in Hrunr; apply Hrunr; lia).
  assert (Hr4 : nth (j + 4) (rev gm) false = true) by (apply Hrunr; lia).
  assert (Hj4 : j + 4 < length gm).
  { apply nth_true_lt in Hr4. now rewrite length_rev in Hr4. }
  rewrite rev_nth in Hr0 by lia.
  apply Hspec in Hr0. destruct Hr0 as [_ Hr0].
  assert (Hj2 : nth (length gm - S j + 2) compare false = true)
    by (apply Hr0; lia).
  apply nth_true_lt in Hj2.
  repeat split; try lia; try assumption.
  destruct (Nat.le_gt_cases i (length gm - j - 5)) as [|Hgt]; [lia|].
  exfalso. apply (Hmin (length gm - j - 5) Hgt).
  intros t Ht.
  specialize (Hrunr (4 - t)).
  rewrite rev_nth in Hrunr by lia.
  replace (length gm - S (j + (4 - t))) with (length gm - j - 5 + t)
    in Hrunr by lia.
  apply Hrunr. lia.
Qed.

Lemma successful_scan_needs_nine_matches_witness :
  let compare := repeat true 12 in
  let gm := [false; false; true; true; true; true; true; true; true; true;
             false; false] in
  9 <= length compare
  /\ length gm = length compare
  /\ (forall k, 2 - 2 <= k <= 2 + 6 -> nth k compare false = true)
  /\ 2 <= 2
  /\ 2 <= 2
  /\ 2 + 5 <= length gm - 2.
Proof.
  apply (successful_scan_needs_nine_matches
           (list_ascii_of_string "ACGTACGTACGT") (row "t1" "ACGTACGTACGT")
           (repeat true 12)
           [false; false; true; true; true; true; true; true; true; true;
            false; false] 2 2);
    vm_compute; reflexivity.
Defined.

(** X19.  A row in whose [gm] neither scan finds a run: [bad_start] and
    [bad_end] are not assigned.  When they hold values from earlier rows the
    row is masked with those; when they do not, [UnboundLocalError] is
    raised, and so [stage_two_trimming] raises it whenever the first row of
    the alignment is such a row. *)
Theorem trim_row_without_run
        (consensus_array : list ascii) (sequence : SeqRecord)
        (window_size : nat) (gm : list bool) :
  row_gm consensus_array sequence window_size = Ok gm ->
  first_run gm 0 = None ->
  first_run (rev gm) 0 = None ->
  (forall old_end,
      trim_row consensus_array sequence window_size None old_end
      = Raise UnboundLocalError)
  /\ (forall old_start old_end,
        trim_row consensus_array sequence window_size
                 (Some old_start) (Some old_end)
        = Ok (Py.assign_suffix (fst (_get_ends sequence) + old_end) gap
                (Py.assign_prefix (fst (_get_ends sequence) + old_start) gap
                   (Bio.seq sequence)),
              Some old_start, Some old_end))
  /\ (forall rest,
        _alignment_consensus (Some (sequence :: rest)) = Ok consensus_array ->
        stage_two_trimming (Some (sequence :: rest)) window_size
        = Raise UnboundLocalError).
Proof.
  intros Hgm Hfwd Hbwd.
  assert (Hnone : forall old_end,
             trim_row consensus_array sequence window_size None old_end
             = Raise UnboundLocalError).
  { intros old_end. unfold trim_row. rewrite Hgm. cbn [Py.bind].
    now rewrite Hfwd, Hbwd. }
  split; [exact Hnone|]. split.
  - intros old_start old_end. unfold trim_row. rewrite Hgm. cbn [Py.bind].
    now rewrite Hfwd, Hbwd.
  - intros rest Hcons. unfold stage_two_trimming. rewrite Hcons.
    cbn [Py.bind stage_two_loop]. now rewrite Hnone.
Qed.

Lemma trim_row_without_run_witness :
  let consensus_array := list_ascii_of_string "ACGTACGTACGT" in
  let sequence := row "t4" "TTTTTTTTTTTT" in
  (forall old_end,
      trim_row consensus_array sequence 5 None old_end
      = Raise UnboundLocalError)
  /\ (forall old_start old_end,
        trim_row consensus_array sequence 5 (Some old_start) (Some old_end)
        = Ok (Py.assign_suffix (fst (_get_ends sequence) + old_end) gap
                (Py.assign_prefix (fst (_get_ends sequence) + old_start) gap
                   (Bio.seq sequence)),
              Some old_start, Some old_end))
  /\ (forall rest,
        _alignment_consensus (Some (sequence :: rest)) = Ok consensus_array ->
        stage_two_trimming (Some (sequence :: rest)) 5
        = Raise UnboundLocalError).
Proof.
  apply (trim_row_without_run
           (list_ascii_of_string "ACGTACGTACGT") (row "t4" "TTTTTTTTTTTT") 5
           (repeat false 12));
    vm_compute; reflexivity.
Defined.

(* ------------------------------------------------------------------ *)
(** ** More on the consensus, the majority count and the checks *)

Section ConsensusLetters.

Lemma consensus_nth (aln : MultipleSeqAlignment) (consensus : list ascii)
      (n : nat) :
  _alignment_consensus (Some aln) = Ok consensus ->
  length consensus = get_alignment_length aln
  /\ (n < get_alignment_length aln ->
      nth n consensus gap
      = if Ascii.eqb (Bio.consensus_letter aln n) "X"
        then gap else Bio.consensus_letter aln n).
Proof.
  cbn [_alignment_consensus]. intros H. apply Ok_inj in H. subst consensus.
  unfold Bio.dumb_consensus. rewrite map_map. split.
  - now rewrite length_map, length_seq.
  - intros Hn.
    rewrite (nth_map_lt _ _ _ _ 0) by (now rewrite length_seq).
    now rewrite seq_nth.
Qed.

Lemma atoms_not_gap_letters (aln : MultipleSeqAlignment) (n : nat)
      (c : ascii) :
  In c (atoms aln n) -> c <> "-"%char /\ c <> "."%char.
Proof.
  unfold atoms. intros H. apply filter_In in H. destruct H as [_ H].
  unfold Bio.is_gap_letter in H. apply negb_true_iff, orb_false_elim in H.
  destruct H as [H1 H2]. apply Ascii.eqb_neq in H1. apply Ascii.eqb_neq in H2.
  now split.
Qed.

End ConsensusLetters.

(** X20.  The consensus never holds ["X"] or ["."]: each of its letters is
    the gap marker or a letter of its column.  A column whose letters other
    than ["-"] and ["."] are all the same letter [c], not ["X"], is called
    [c], however many rows have a gap there; a column without any such
    letter is called as a gap. *)
Theorem alignment_consensus_letters
        (aln : MultipleSeqAlignment) (consensus : list ascii) :
  _alignment_consensus (Some aln) = Ok consensus ->
  Forall (fun x => x <> "X"%char /\ x <> "."%char) consensus
  /\ (forall n, n < get_alignment_length aln ->
        nth n consensus gap = gap \/ In (nth n consensus gap) (atoms aln n))
  /\ (forall n c, n < get_alignment_length aln ->
        In c (atoms aln n) ->
        (forall d, In d (atoms aln n) -> d = c) ->
        c <> "X"%char ->
        nth n consensus gap = c)
  /\ (forall n, n < get_alignment_length aln ->
        atoms aln n = [] -> nth n consensus gap = gap).
Proof.
  intros H.
  assert (Hlen : length consensus = get_alignment_length aln)
    by (apply (consensus_nth aln consensus 0 H)).
  assert (Hnth : forall n, n < get_alignment_length aln ->
             nth n consensus gap = gap
             \/ (nth n consensus gap = Bio.consensus_letter aln n
                 /\ Bio.consensus_letter aln n <> "X"%char)).
  { intros n Hn. rewrite (proj2 (consensus_nth aln consensus n H) Hn).
    destruct (Ascii.eqb_spec (Bio.consensus_letter aln n) "X");
      [now left | now right]. }
  assert (Hin : forall n, n < get_alignment_length aln ->
             nth n consensus gap = gap
             \/ In (nth n consensus gap) (atoms aln n)).
  { intros n Hn. destruct (Hnth n Hn) as [|[E HX]]; [now left|].
    right. rewrite E.
    now apply (consensus_letter_spec aln n _ HX). }
  split; [|split; [exact Hin|split]].
  - apply Forall_forall. intros x Hx.
    apply (In_nth _ _ gap) in Hx. destruct Hx as (n & Hn & <-).
    rewrite Hlen in Hn.
    destruct (Hin n Hn) as [->|Hatom].
    + split; discriminate.
    + destruct (Hnth n Hn) as [E|[E HX]].
      * rewrite E. split; discriminate.
      * split; [now rewrite E|].
        now apply (atoms_not_gap_letters aln n).
  - intros n c Hn Hc Hall HX.
    assert (Hletter : Bio.consensus_letter aln n = c).
    { apply consensus_letter_spec; [exact HX|].
      split; [exact Hc|]. split.
      - intros d Hd Hdc. exfalso. now apply Hdc, Hall.
      - unfold occurrences. rewrite (count_occ_all _ _ Hall). lia. }
    rewrite (proj2 (consensus_nth aln consensus n H) Hn), Hletter.
    destruct (Ascii.eqb_spec c "X"); [congruence | reflexivity].
  - intros n Hn Hempty. destruct (Hin n Hn) as [|Hatom]; [assumption|].
    rewrite Hempty in Hatom. destruct Hatom.
Qed.

Lemma alignment_consensus_letters_witness :
  let aln := half_gapped in
  let consensus := list_ascii_of_string "AC" in
  Forall (fun x => x <> "X"%char /\ x <> "."%char) consensus
  /\ (forall n, n < get_alignment_length aln ->
        nth n consensus gap = gap \/ In (nth n consensus gap) (atoms aln n))
  /\ (forall n c, n < get_alignment_length aln ->
        In c (atoms aln n) ->
        (forall d, In d (atoms aln n) -> d = c) ->
        c <> "X"%char ->
        nth n consensus gap = c)
  /\ (forall n, n < get_alignment_length aln ->
        atoms aln n = [] -> nth n consensus gap = gap).
Proof.
  apply (alignment_consensus_letters half_gapped (list_ascii_of_string "AC")).
  vm_compute. reflexivity.
Defined.

(** X22.  The row check of stages one and two lets a row through exactly
    when it is empty or holds a letter other than the gap marker; a row of
    missing-data markers ["?"] only is let through. *)
Theorem row_check_spec (trim : list ascii) :
  (keep_row trim = true
   <-> trim = [] \/ exists c, In c trim /\ c <> gap)
  /\ (forall n, keep_row (repeat missing n) = true).
Proof.
  assert (H : keep_row trim = true
              <-> trim = [] \/ exists c, In c trim /\ c <> gap).
  { split.
    - intros Hk. destruct trim as [|x tl]; [now left|]. right.
      destruct (existsb (fun c => negb (Ascii.eqb c gap)) (x :: tl)) eqn:E.
      + apply existsb_exists in E. destruct E as (c & Hc & Hne).
        exists c. split; [exact Hc|].
        apply negb_true_iff, Ascii.eqb_neq in Hne. exact Hne.
      + exfalso.
        assert (Hf : keep_row (x :: tl) = false).
        { apply keep_row_false. split; [discriminate|].
          intros c Hc.
          destruct (Ascii.eqb_spec c gap) as [|Hne]; [assumption|].
          exfalso.
          assert (Ht : existsb (fun c => negb (Ascii.eqb c gap)) (x :: tl)
                       = true).
          { apply existsb_exists. exists c. split; [exact Hc|].
            now apply negb_true_iff, Ascii.eqb_neq. }
          congruence. }
        congruence.
    - intros Hcase. destruct (keep_row trim) eqn:E; [reflexivity|].
      apply keep_row_false in E. destruct E as [Hne Hall].
      destruct Hcase as [->|(c & Hc & Hcne)]; [congruence|].
      exfalso. now apply Hcne, Hall. }
  split; [exact H|].
  intros n. destruct (keep_row (repeat missing n)) eqn:E; [reflexivity|].
  apply keep_row_false in E. destruct E as [Hne Hall].
  destruct n as [|n]; [cbn in Hne; congruence|].
  specialize (Hall missing (or_introl eq_refl)). discriminate.
Qed.

(** X23.  The test of one column raises exactly when the column holds gap
    markers only and their number does not exceed the majority count; the
    exception is [IndexError]. *)
Theorem column_test_raises (majority_of_characters : Z) (col : list ascii) :
  (column_is_good majority_of_characters col = Raise IndexError
   <-> (Z.of_nat (count_occ ascii_dec col gap)
        <= majority_of_characters)%Z
       /\ forall c, In c col -> c = gap)
  /\ (forall e, column_is_good majority_of_characters col = Raise e ->
                e = IndexError).
Proof.
  pose proof (column_is_good_spec majority_of_characters col) as Hspec.
  cbn zeta in Hspec.
  destruct (column_is_good majority_of_characters col) as [[|]|e] eqn:E.
  - split; [|discriminate]. split; [discriminate|].
    intros [_ Hall]. exfalso.
    destruct Hspec as (_ & c & Hc & Hne & _). now apply Hne, Hall.
  - split; [|discriminate]. split; [discriminate|].
    intros [Hle Hall]. exfalso.
    destruct Hspec as [Hgt|[(c & Hc & Hne) _]]; [lia|].
    now apply Hne, Hall.
  - destruct Hspec as (-> & Hle & Hall). split; [|now intros e [= <-]].
    split; [intros _; now split | reflexivity].
Qed.



(* ------------------------------------------------------------------ *)
(** ** Stage two, row by row *)

Section RowByRow.

Variables (consensus_array : list ascii) (window_size : nat).

(** The row body: what it returns, and the locals it leaves. *)
Lemma trim_row_inv (sequence : SeqRecord) (bs be bs' be' : option nat)
      (trim : list ascii) :
  trim_row consensus_array sequence window_size bs be = Ok (trim, bs', be') ->
  exists lo hi,
    bs' = Some lo /\ be' = Some hi
    /\ trim = Py.assign_suffix (fst (_get_ends sequence) + hi) gap
                (Py.assign_prefix (fst (_get_ends sequence) + lo) gap
                   (Bio.seq sequence))
    /\ forall rest,
         locals_after consensus_array window_size (sequence :: rest) bs be
         = locals_after consensus_array window_size rest bs' be'.
Proof.
  unfold trim_row. intros H. bind_inv H. rename a into gm.
  bind_inv H. rename a into lo. bind_inv H. rename a into hi.
  apply Ok_inj in H. injection H as <- <- <-.
  exists lo, hi.
  assert (Hlo : assign_if_found (first_run gm 0) bs = Some lo).
  { destruct (assign_if_found _ bs); [|discriminate E0].
    cbn in E0. congruence. }
  assert (Hhi : assign_if_found
                  (option_map (fun i => length (rev gm) - i)
                              (first_run (rev gm) 0)) be = Some hi).
  { destruct (assign_if_found _ be); [|discriminate E1].
    cbn in E1. congruence. }
  repeat split; try assumption.
  intros rest. cbn [locals_after]. now rewrite E.
Qed.

(** The row at which the loop gives up. *)
Lemma stage_two_loop_None (rows : list SeqRecord) :
  forall bs be acc,
    stage_two_loop consensus_array rows window_size bs be acc = Ok None ->
    exists done sequence rest trim bs' be',
      rows = done ++ sequence :: rest
      /\ trim_row consensus_array sequence window_size
           (fst (locals_after consensus_array window_size done bs be))
           (snd (locals_after consensus_array window_size done bs be))
         = Ok (trim, bs', be')
      /\ keep_row trim = false.
Proof.
  induction rows as [|r rest IH]; intros bs be acc H; [discriminate|].
  cbn [stage_two_loop] in H.
  bind_inv H. destruct a as [[trim bs1] be1].
  destruct (keep_row trim) eqn:Hk.
  - bind_inv H. apply IH in H.
    destruct H as (done & sequence & rest' & trim' & bs' & be' &
                   -> & Hrow & Hk').
    exists (r :: done), sequence, rest', trim', bs', be'.
    destruct (trim_row_inv _ _ _ _ _ _ E) as (lo & hi & _ & _ & _ & Hloc).
    rewrite Hloc. now repeat split.
  - exists [], r, rest, trim, bs1, be1. now repeat split.
Qed.

(** The record that the loop appends for the row at index [k]. *)
Lemma stage_two_loop_nth (rows : list SeqRecord) :
  forall bs be acc out,
    stage_two_loop consensus_array rows window_size bs be acc
    = Ok (Some out) ->
    forall k sequence,
      nth_error rows k = Some sequence ->
      exists trim bs' be',
        trim_row consensus_array sequence window_size
          (fst (locals_after consensus_array window_size
                             (firstn k rows) bs be))
          (snd (locals_after consensus_array window_size
                             (firstn k rows) bs be))
        = Ok (trim, bs', be')
        /\ nth_error out (length acc + k)
           = Some (_record_formatter trim (Bio.id sequence)).
Proof.
  induction rows as [|r rest IH]; intros bs be acc out H k sequence Hk;
    [destruct k; discriminate|].
  cbn [stage_two_loop] in H.
  bind_inv H. destruct a as [[trim bs1] be1].
  destruct (keep_row trim); [|discriminate H].
  bind_inv H. apply append_Ok in E0. subst a.
  destruct k as [|k].
  - cbn in Hk. injection Hk as <-.
    exists trim, bs1, be1. split; [exact E|].
    apply stage_two_loop_Some in H. destruct H as (new & -> & _).
    rewrite Nat.add_0_r, <- app_assoc.
    rewrite nth_error_app2 by lia. now rewrite Nat.sub_diag.
  - cbn [nth_error] in Hk.
    destruct (IH _ _ _ _ H k sequence Hk) as (trim' & bs' & be' & Hrow & Hn).
    exists trim', bs', be'. split.
    + cbn [firstn].
      destruct (trim_row_inv _ _ _ _ _ _ E) as (lo & hi & _ & _ & _ & Hloc).
      now rewrite Hloc.
    + rewrite length_app in Hn. cbn [length] in Hn.
      now replace (length acc + S k) with (length acc + 1 + k) by lia.
Qed.

End RowByRow.

(** C8.  A row of the alignment given to stage two for which both scans
    succeed, with [bad_start] from the forward scan and
    [bad_end = len(gm) - j] from the backward one.  The record that the pass
    returns at the row's index carries the row's label and the row's
    letters, with every letter before column [start + bad_start] and every
    letter from column [start + bad_end] on replaced by the gap marker and
    all letters in between as they were, whatever they are.  [start] is the
    number of gap markers that open the row. *)
Theorem stage_two_masks_outside_core
        (rows out : MultipleSeqAlignment) (window_size : nat)
        (consensus_array : list ascii) (k : nat) (sequence : SeqRecord)
        (gm : list bool) (bad_start j : nat) :
  stage_two_trimming (Some rows) window_size = Ok (Some out) ->
  _alignment_consensus (Some rows) = Ok consensus_array ->
  nth_error rows k = Some sequence ->
  row_gm consensus_array sequence window_size = Ok gm ->
  first_run gm 0 = Some bad_start ->
  first_run (rev gm) 0 = Some j ->
  let start := fst (_get_ends sequence) in
  let bad_end := length gm - j in
  (forall i, i < start -> nth i (Bio.seq sequence) gap = gap)
  /\ (start < length (Bio.seq sequence) ->
      nth start (Bio.seq sequence) gap <> gap)
  /\ exists trimmed_row,
       nth_error out k = Some trimmed_row
       /\ Bio.id trimmed_row = Bio.id sequence
       /\ length (Bio.seq trimmed_row) = length (Bio.seq sequence)
       /\ forall i, i < length (Bio.seq sequence) ->
            nth i (Bio.seq trimmed_row) gap
            = if (i <? start + bad_start) || (start + bad_end <=? i)
              then gap else nth i (Bio.seq sequence) gap.
Proof.
  intros H Hcons Hk Hgm Hfwd Hbwd start bad_end.
  split; [intros i Hi; now apply gap_run_gaps|].
  split; [intros Hlt; now apply gap_run_stop|].
  unfold stage_two_trimming in H. rewrite Hcons in H. cbn [Py.bind] in H.
  destruct (stage_two_loop_nth _ _ _ _ _ _ _ H k sequence Hk)
    as (trim & bs' & be' & Hrow & Hn).
  rewrite (trim_row_found _ _ _ _ _ gm bad_start j Hgm Hfwd Hbwd) in Hrow.
  apply Ok_inj in Hrow. injection Hrow as <- _ _.
  eexists. split; [exact Hn|]. split; [reflexivity|].
  cbn [_record_formatter Bio.seq]. split.
  - now rewrite length_assign_suffix, length_assign_prefix.
  - intros i Hi. now apply mask_nth.
Qed.

(** The same at the first row of [divergent_last] after pass A. *)
Lemma stage_two_masks_outside_core_witness :
  let sequence := row "t1" "ACGTACGTACGT" in
  let out := [ row "t1" "--GTACGTAC--"; row "t2" "--GTACGTAC--";
               row "t3" "--GTACGTAC--"; row "t4" "--TTTTTTTT--" ] in
  (forall i, i < 0 -> nth i (Bio.seq sequence) gap = gap)
  /\ (0 < length (Bio.seq sequence) -> nth 0 (Bio.seq sequence) gap <> gap)
  /\ exists trimmed_row,
       nth_error out 0 = Some trimmed_row
       /\ Bio.id trimmed_row = Bio.id sequence
       /\ length (Bio.seq trimmed_row) = length (Bio.seq sequence)
       /\ forall i, i < length (Bio.seq sequence) ->
            nth i (Bio.seq trimmed_row) gap
            = if (i <? 0 + 2) || (0 + (12 - 2) <=? i)
              then gap else nth i (Bio.seq sequence) gap.
Proof.
  apply (stage_two_masks_outside_core
           [ row "t1" "ACGTACGTACGT"; row "t2" "ACGTACGTACGT";
             row "t3" "ACGTACGTACGT"; row "t4" "TTTTTTTTTTTT" ]
           [ row "t1" "--GTACGTAC--"; row "t2" "--GTACGTAC--";
             row "t3" "--GTACGTAC--"; row "t4" "--TTTTTTTT--" ]
           5 (list_ascii_of_string "ACGTACGTACGT") 0
           (row "t1" "ACGTACGTACGT")
           [false; false; true; true; true; true; true; true; true; true;
            false; false] 2 2);
    vm_compute; reflexivity.
Defined.

(** X25.  Stage two returns [None] only at a row that its own masking has
    emptied: the row body, entered with [bad_start] and [bad_end] as the
    rows before it left them, returns the row masked before column
    [start + bad_start] and from column [start + bad_end] on; the row is not
    empty and every letter it has between these two columns is a gap
    marker. *)
Theorem stage_two_trimming_none
        (rows : MultipleSeqAlignment) (window_size : nat)
        (consensus_array : list ascii) :
  stage_two_trimming (Some rows) window_size = Ok None ->
  _alignment_consensus (Some rows) = Ok consensus_array ->
  exists done sequence rest bad_start bad_end,
    rows = done ++ sequence :: rest
    /\ trim_row consensus_array sequence window_size
         (fst (locals_after consensus_array window_size done None None))
         (snd (locals_after consensus_array window_size done None None))
       = Ok (Py.assign_suffix (fst (_get_ends sequence) + bad_end) gap
               (Py.assign_prefix (fst (_get_ends sequence) + bad_start) gap
                  (Bio.seq sequence)),
             Some bad_start, Some bad_end)
    /\ Bio.seq sequence <> []
    /\ forall i,
         fst (_get_ends sequence) + bad_start <= i
         < fst (_get_ends sequence) + bad_end ->
         i < length (Bio.seq sequence) ->
         nth i (Bio.seq sequence) gap = gap.
Proof.
  intros H Hcons.
  unfold stage_two_trimming in H. rewrite Hcons in H. cbn [Py.bind] in H.
  apply stage_two_loop_None in H.
  destruct H as (done & sequence & rest & trim & bs' & be' & -> & Hrow & Hk).
  destruct (trim_row_inv _ _ _ _ _ _ _ _ Hrow)
    as (lo & hi & -> & -> & Htrim & _).
  apply keep_row_false in Hk. destruct Hk as [Hne Hall].
  exists done, sequence, rest, lo, hi.
  split; [reflexivity|]. split; [now rewrite <- Htrim|].
  assert (Hlen : length trim = length (Bio.seq sequence))
    by (rewrite Htrim; now rewrite length_assign_suffix, length_assign_prefix).
  split.
  - intros Hnil. rewrite Hnil in Hlen. destruct trim; [congruence|].
    discriminate.
  - intros i Hi Hlt.
    assert (Hin : In (nth i trim gap) trim)
      by (apply nth_In; now rewrite Hlen).
    apply Hall in Hin. rewrite Htrim, mask_nth in Hin by exact Hlt.
    destruct (Nat.ltb_spec i (fst (_get_ends sequence) + lo)); [lia|].
    destruct (Nat.leb_spec (fst (_get_ends sequence) + hi) i); [lia|].
    exact Hin.
Qed.

(** Three conserved rows and a row with two letters before a run of gap
    markers: the scans of the last row fail, and the bounds left by the
    third row mask its two letters. *)
Lemma stage_two_trimming_none_witness :
  let rows := [ row "t1" "ACGTACGTACGT"; row "t2" "ACGTACGTACGT";
                row "t3" "ACGTACGTACGT"; row "t4" "AC----------" ] in
  let consensus_array := list_ascii_of_string "ACGTACGTACGT" in
  exists done sequence rest bad_start bad_end,
    rows = done ++ sequence :: rest
    /\ trim_row consensus_array sequence 5
         (fst (locals_after consensus_array 5 done None None))
         (snd (locals_after consensus_array 5 done None None))
       = Ok (Py.assign_suffix (fst (_get_ends sequence) + bad_end) gap
               (Py.assign_prefix (fst (_get_ends sequence) + bad_start) gap
                  (Bio.seq sequence)),
             Some bad_start, Some bad_end)
    /\ Bio.seq sequence <> []
    /\ forall i,
         fst (_get_ends sequence) + bad_start <= i
         < fst (_get_ends sequence) + bad_end ->
         i < length (Bio.seq sequence) ->
         nth i (Bio.seq sequence) gap = gap.
Proof.
  apply (stage_two_trimming_none
           [ row "t1" "ACGTACGTACGT"; row "t2" "ACGTACGTACGT";
             row "t3" "ACGTACGTACGT"; row "t4" "AC----------" ] 5
           (list_ascii_of_string "ACGTACGTACGT"));
    vm_compute; reflexivity.
Defined.
